(** * Resume fraud scoring engine: [fraud_checker.py]

    A shallow embedding of the scoring engine of the resume fraud backend
    and the theorems that relate it to its specification.

    Python strings are sequences of code points.  What the interpreter
    reads from its Unicode database (white space, decimal digits,
    alphanumerics, lower-casing, case-insensitive comparison) is an
    interface, [UnicodeData]; [ascii_data] gives these tables on the
    code points below 128, where concrete resumes are evaluated, and
    [latin1_data] on the code points below 256, for a text with
    accented letters.

    Operations that can raise return a [result].  The calls to the logger
    only observe the computation and are left out; the current year,
    which the program reads from the clock, is a parameter.

    The text extraction of [extractor.py] and the extension check of the
    upload route in [main.py] follow the scoring engine. *)

From Stdlib Require Import List ZArith NArith Lia Bool String Ascii PeanoNat.
From Stdlib Require Import DecimalString Sorted.
Import ListNotations.

Set Implicit Arguments.

(** ** Strings *)

Definition char := N.
Definition str := list char.

Definition pystr (s : string) : str :=
  map N_of_ascii (list_ascii_of_string s).

Definition chr (s : string) : char :=
  match s with
  | String a _ => N_of_ascii a
  | EmptyString => 0%N
  end.

Definition str_eqb (a b : str) : bool :=
  if list_eq_dec N.eq_dec a b then true else false.

(** ** Exceptions *)

Inductive exn := ValueError | AttributeError.

Inductive result (A : Type) :=
| Ok (a : A)
| Raise (e : exn).
Arguments Ok {A} a.
Arguments Raise {A} e.

Definition bind {A B} (m : result A) (f : A -> result B) : result B :=
  match m with
  | Ok a => f a
  | Raise e => Raise e
  end.

Notation "x <- m ;; f" := (bind m (fun x => f))
  (at level 61, m at next level, right associativity).

(** ** The interpreter's Unicode tables *)

Class UnicodeData := {
  (* Py_UNICODE_ISSPACE: str.strip, str.split and the class \s *)
  isspace : char -> bool;
  (* Py_UNICODE_TODECIMAL, read above code point 126 by the class \d and
     by int() *)
  todecimal : char -> option Z;
  (* Py_UNICODE_ISALNUM: with the underscore, the class \w of \b *)
  isalnum : char -> bool;
  (* str.lower() *)
  lower : str -> str;
  (* comparison of a text character with a pattern character under
     re.IGNORECASE *)
  ignorecase_eq : char -> char -> bool
}.

Definition in_range (lo hi c : char) : bool :=
  ((lo <=? c) && (c <=? hi))%N.

Definition ascii_lower (c : char) : char :=
  if in_range (chr "A") (chr "Z") c then (c + 32)%N else c.

Definition ascii_isspace (c : char) : bool :=
  in_range 9%N 13%N c || in_range 28%N 32%N c.

Definition ascii_data : UnicodeData := {|
  isspace := ascii_isspace;
  todecimal := fun c =>
    if in_range (chr "0") (chr "9") c then Some (Z.of_N c - 48)%Z else None;
  isalnum := fun c =>
    in_range (chr "0") (chr "9") c || in_range (chr "A") (chr "Z") c
    || in_range (chr "a") (chr "z") c;
  lower := map ascii_lower;
  ignorecase_eq := fun x y => N.eqb (ascii_lower x) (ascii_lower y)
|}.

(** The same tables on the code points below 256 (Latin-1), where
    letters with accents are alphabetic.  No decimal digit lies between
    128 and 255, and [str.lower] maps every character below 256 to one
    character. *)

Definition latin1_isspace (c : char) : bool :=
  in_range 9%N 13%N c || in_range 28%N 32%N c
  || N.eqb c 133%N || N.eqb c 160%N.

(* str.isalpha on one character *)
Definition latin1_isalpha (c : char) : bool :=
  in_range 65%N 90%N c || in_range 97%N 122%N c
  || N.eqb c 170%N || N.eqb c 181%N || N.eqb c 186%N
  || in_range 192%N 214%N c || in_range 216%N 246%N c
  || in_range 248%N 255%N c.

Definition latin1_isalnum (c : char) : bool :=
  latin1_isalpha c || in_range 48%N 57%N c
  || in_range 178%N 179%N c || N.eqb c 185%N || in_range 188%N 190%N c.

Definition latin1_lower (c : char) : char :=
  if in_range 65%N 90%N c || in_range 192%N 214%N c || in_range 216%N 222%N c
  then (c + 32)%N else c.

Definition latin1_data : UnicodeData := {|
  isspace := latin1_isspace;
  todecimal := fun c =>
    if in_range (chr "0") (chr "9") c then Some (Z.of_N c - 48)%Z else None;
  isalnum := latin1_isalnum;
  lower := map latin1_lower;
  ignorecase_eq := fun x y => N.eqb (latin1_lower x) (latin1_lower y)
|}.

Section Engine.

Context {U : UnicodeData}.

(* The value of a decimal digit: below code point 127 the ASCII digits,
   above it what the Unicode table says *)
Definition digit_value (c : char) : option Z :=
  if (c <? 127)%N then
    if in_range (chr "0") (chr "9") c then Some (Z.of_N c - 48)%Z else None
  else todecimal c.

Definition isdecimal (c : char) : bool :=
  match digit_value c with Some _ => true | None => false end.

Definition isword (c : char) : bool :=
  isalnum c || N.eqb c (chr "_").

(** *** str methods *)

Fixpoint lstrip (s : str) : str :=
  match s with
  | c :: s' => if isspace c then lstrip s' else s
  | [] => []
  end.

Definition strip (s : str) : str := rev (lstrip (rev (lstrip s))).

(* str.split() without arguments: the maximal runs of non-space
   characters; [cur] is the run being read, reversed *)
Fixpoint split_ws (cur : str) (s : str) : list str :=
  let flush := match cur with [] => [] | _ => [rev cur] end in
  match s with
  | [] => flush
  | c :: s' => if isspace c then flush ++ split_ws [] s'
               else split_ws (c :: cur) s'
  end.

Definition split (s : str) : list str := split_ws [] s.

Fixpoint startswith (p s : str) : bool :=
  match p, s with
  | [], _ => true
  | a :: p', b :: s' => N.eqb a b && startswith p' s'
  | _ :: _, [] => false
  end.

(* [p in s] *)
Fixpoint contains (p s : str) : bool :=
  startswith p s ||
  match s with
  | [] => false
  | _ :: s' => contains p s'
  end.

Fixpoint join (sep : str) (l : list str) : str :=
  match l with
  | [] => []
  | [x] => x
  | x :: l' => x ++ sep ++ join sep l'
  end.

Definition str_of_int (z : Z) : str :=
  pystr (NilZero.string_of_int (Z.to_int z)).

(** *** int() on the digits captured by a pattern

    [py_int] is [int] on strings of decimal digits, the only strings the
    program converts (signs, underscores and surrounding blanks, which
    [int] also reads, count as non-digits here).  A string of more digits
    than the interpreter's limit for integer conversion, 4300 unless
    reconfigured, is refused with ValueError, like the empty string. *)

Definition int_max_str_digits : nat := 4300.

Fixpoint digits_value (acc : Z) (s : str) : option Z :=
  match s with
  | [] => Some acc
  | c :: s' =>
      match digit_value c with
      | Some d => digits_value (10 * acc + d)%Z s'
      | None => None
      end
  end.

Definition py_int (s : str) : result Z :=
  if (int_max_str_digits <? List.length s)%nat then Raise ValueError
  else match s with
       | [] => Raise ValueError
       | _ => match digits_value 0 s with
              | Some z => Ok z
              | None => Raise ValueError
              end
       end.

(** ** Regular expressions

    The fragment of [re] the five patterns and the tokenizer use, matched
    by backtracking in the order of the [re] module: leftmost start,
    first alternative first, greedy repetition.  Repetition bodies are
    single character classes; every pattern has at most one capturing
    group. *)

Inductive item :=
| One (c : char)
| Range (lo hi : char).

Inductive cset :=
| Chars (items : list item)     (* [...] *)
| NotChars (items : list item)  (* [^...] *)
| Digit                         (* \d *)
| Space.                        (* \s *)

Inductive regex :=
| Eps
| Lit (c : char)
| OneOf (cs : cset)
| Seq (r1 r2 : regex)
| Alt (r1 r2 : regex)
| Opt (r : regex)                          (* r? *)
| Rep (lo : nat) (hi : option nat) (cs : cset)  (* cs{lo,hi}, cs+, cs* *)
| Group (r : regex)                        (* ( r ), group 1 *)
| Bol                                      (* ^ *)
| WordB.                                   (* \b *)

Record pattern := {
  p_regex : regex;
  p_ignorecase : bool;
  p_multiline : bool
}.

Fixpoint lits (s : str) : regex :=
  match s with
  | [] => Eps
  | [c] => Lit c
  | c :: s' => Seq (Lit c) (lits s')
  end.

Fixpoint seqs (l : list regex) : regex :=
  match l with
  | [] => Eps
  | [r] => r
  | r :: l' => Seq r (seqs l')
  end.

(* r{0,n} *)
Fixpoint upto (n : nat) (r : regex) : regex :=
  match n with
  | O => Eps
  | S n' => Opt (Seq r (upto n' r))
  end.

Fixpoint has_group (r : regex) : bool :=
  match r with
  | Group _ => true
  | Seq r1 r2 | Alt r1 r2 => has_group r1 || has_group r2
  | Opt r => has_group r
  | _ => false
  end.

(** A position in the text: the character before it (if any), the text
    from it on, and what group 1 holds so far. *)
Record mstate := {
  m_before : option char;
  m_rest : str;
  m_group : option str
}.

Definition in_item (ic : bool) (c : char) (i : item) : bool :=
  match i with
  | One x => N.eqb c x || (ic && ignorecase_eq c x)
  | Range lo hi =>
      in_range lo hi c ||
      (ic && existsb (fun n => ignorecase_eq c (lo + N.of_nat n)%N)
                     (seq 0 (S (N.to_nat (hi - lo)))))
  end.

Definition in_cset (ic : bool) (cs : cset) (c : char) : bool :=
  match cs with
  | Chars items => existsb (in_item ic c) items
  | NotChars items => negb (existsb (in_item ic c) items)
  | Digit => isdecimal c
  | Space => isspace c
  end.

Definition is_word_opt (o : option char) : bool :=
  match o with Some c => isword c | None => false end.

Definition at_boundary (st : mstate) : bool :=
  xorb (is_word_opt (m_before st)) (is_word_opt (hd_error (m_rest st))).

Definition at_line_start (ml : bool) (st : mstate) : bool :=
  match m_before st with
  | None => true
  | Some c => ml && N.eqb c 10%N
  end.

Definition or_else {A} (a b : option A) : option A :=
  match a with Some _ => a | None => b end.

Section Match.

Variable A : Type.
Variables ic ml : bool.

(* cs{lo,hi}: as many characters as allowed, giving back one at a time *)
Fixpoint rep_greedy (cs : cset) (lo : nat) (hi : option nat)
    (b : option char) (s : str) (g : option str)
    (k : mstate -> option A) : option A :=
  let stop :=
    match lo with
    | O => k {| m_before := b; m_rest := s; m_group := g |}
    | S _ => None
    end in
  match hi, s with
  | Some O, _ => stop
  | _, c :: s' =>
      if in_cset ic cs c
      then or_else (rep_greedy cs (pred lo) (option_map pred hi) (Some c) s' g k) stop
      else stop
  | _, [] => stop
  end.

Definition consumed (st st' : mstate) : str :=
  firstn (List.length (m_rest st) - List.length (m_rest st')) (m_rest st).

Fixpoint rmatch (r : regex) (st : mstate) (k : mstate -> option A) : option A :=
  match r with
  | Eps => k st
  | Lit x =>
      match m_rest st with
      | c :: s' =>
          if N.eqb c x || (ic && ignorecase_eq c x)
          then k {| m_before := Some c; m_rest := s'; m_group := m_group st |}
          else None
      | [] => None
      end
  | OneOf cs =>
      match m_rest st with
      | c :: s' =>
          if in_cset ic cs c
          then k {| m_before := Some c; m_rest := s'; m_group := m_group st |}
          else None
      | [] => None
      end
  | Seq r1 r2 => rmatch r1 st (fun st' => rmatch r2 st' k)
  | Alt r1 r2 => or_else (rmatch r1 st k) (rmatch r2 st k)
  | Opt r1 => or_else (rmatch r1 st k) (k st)
  | Rep lo hi cs => rep_greedy cs lo hi (m_before st) (m_rest st) (m_group st) k
  | Group r1 =>
      rmatch r1 st (fun st' =>
        k {| m_before := m_before st'; m_rest := m_rest st';
             m_group := Some (consumed st st') |})
  | Bol => if at_line_start ml st then k st else None
  | WordB => if at_boundary st then k st else None
  end.

End Match.

(** A match object: the text matched and group 1. *)
Record rematch := {
  matched : str;
  group1 : option str
}.

Definition match_at (p : pattern) (b : option char) (s : str) : option rematch :=
  let st := {| m_before := b; m_rest := s; m_group := None |} in
  rmatch (p_ignorecase p) (p_multiline p) (p_regex p) st
    (fun st' => Some {| matched := consumed st st'; group1 := m_group st' |}).

(* pattern.search(text): the match at the leftmost position that has one *)
Fixpoint search_from (p : pattern) (b : option char) (s : str) : option rematch :=
  match match_at p b s with
  | Some m => Some m
  | None =>
      match s with
      | [] => None
      | c :: s' => search_from p (Some c) s'
      end
  end.

Definition search (p : pattern) (s : str) : option rematch :=
  search_from p None s.

(* match.group(1); an attribute of None where the group took no part *)
Definition group (m : rematch) : result str :=
  match group1 m with
  | Some g => Ok g
  | None => Raise AttributeError
  end.

(* What findall lists for a match: group 1 when the pattern has a group
   (empty where it took no part), the whole match otherwise. *)
Definition findall_item (p : pattern) (m : rematch) : str :=
  if has_group (p_regex p)
  then match group1 m with Some g => g | None => [] end
  else matched m.

(* pattern.findall(text): matches from left to right, each search
   resuming where the previous match ended; [skip] counts the characters
   of the last match still to step over.  (After an empty match the scan
   moves on by one character; no pattern used with findall has one.) *)
Fixpoint findall_from (p : pattern) (b : option char) (s : str) (skip : nat)
    : list str :=
  match skip with
  | S n =>
      match s with
      | c :: s' => findall_from p (Some c) s' n
      | [] => []
      end
  | O =>
      match match_at p b s with
      | Some m =>
          findall_item p m ::
          match s with
          | c :: s' => findall_from p (Some c) s' (pred (List.length (matched m)))
          | [] => []
          end
      | None =>
          match s with
          | c :: s' => findall_from p (Some c) s' 0
          | [] => []
          end
      end
  end.

Definition findall (p : pattern) (s : str) : list str :=
  findall_from p None s 0.

End Engine.

(** ** Regex patterns *)

Definition L (s : string) : regex := lits (pystr s).

(* (?:https?://)?(?:www\.)?github\.com/([A-Za-z0-9_-]+) *)
Definition profile_handle : cset :=
  Chars [Range (chr "A") (chr "Z"); Range (chr "a") (chr "z");
         Range (chr "0") (chr "9"); One (chr "_"); One (chr "-")].

Definition url_prefix : list regex :=
  [Opt (seqs [L "http"; Opt (L "s"); L "://"]); Opt (L "www.")].

Definition GITHUB_PATTERN : pattern := {|
  p_regex := seqs (url_prefix ++ [L "github.com/"; Group (Rep 1 None profile_handle)]);
  p_ignorecase := true;
  p_multiline := false
|}.

(* (?:https?://)?(?:www\.)?linkedin\.com/in/([A-Za-z0-9_-]+) *)
Definition LINKEDIN_PATTERN : pattern := {|
  p_regex := seqs (url_prefix ++ [L "linkedin.com/in/"; Group (Rep 1 None profile_handle)]);
  p_ignorecase := true;
  p_multiline := false
|}.

(* \b(19|20)\d{2}\b *)
Definition YEAR_PATTERN : pattern := {|
  p_regex := seqs [WordB; Group (Alt (L "19") (L "20")); Rep 2 (Some 2) Digit; WordB];
  p_ignorecase := false;
  p_multiline := false
|}.

(* (\d+)\+?\s*(?:years?|yrs?)\s*(?:of\s+)?(?:experience|exp)? *)
Definition EXPERIENCE_PATTERN : pattern := {|
  p_regex :=
    seqs [Group (Rep 1 None Digit); Opt (L "+"); Rep 0 None Space;
          Alt (Seq (L "year") (Opt (L "s"))) (Seq (L "yr") (Opt (L "s")));
          Rep 0 None Space;
          Opt (Seq (L "of") (Rep 1 None Space));
          Opt (Alt (L "experience") (L "exp"))];
  p_ignorecase := true;
  p_multiline := false
|}.

(* ^([A-Z][a-z]+(?:\s+[A-Z][a-z]+){0,3}) *)
Definition capitalized : list regex :=
  [OneOf (Chars [Range (chr "A") (chr "Z")]);
   Rep 1 None (Chars [Range (chr "a") (chr "z")])].

Definition NAME_PATTERN : pattern := {|
  p_regex :=
    Seq Bol (Group (seqs (capitalized ++
                          [upto 3 (seqs (Rep 1 None Space :: capitalized))])));
  p_ignorecase := false;
  p_multiline := true
|}.

(* [a-zA-Z]{3,}, the pattern of the repeated-word detection *)
Definition WORD_PATTERN : pattern := {|
  p_regex := Rep 3 None (Chars [Range (chr "a") (chr "z"); Range (chr "A") (chr "Z")]);
  p_ignorecase := false;
  p_multiline := false
|}.

(** ** collections.Counter

    A dict keeps its keys in the order of their first insertion, which is
    the order [items()] enumerates them in. *)

Fixpoint counter_add (w : str) (d : list (str * nat)) : list (str * nat) :=
  match d with
  | [] => [(w, 1)]
  | (k, c) :: d' =>
      if str_eqb k w then (k, S c) :: d' else (k, c) :: counter_add w d'
  end.

Definition Counter (ws : list str) : list (str * nat) :=
  fold_left (fun d w => counter_add w d) ws [].

(** ** The fraud report *)

Inductive status := Genuine | Suspicious.

Record FraudReport := {
  filename : str;
  fraud_score : Z;
  fraud_status : status;
  reasons : list str;
  extracted_preview : str
}.

Section FraudChecker.

Context {U : UnicodeData}.

Local Open Scope Z_scope.

(* truth value of a string, of an optional integer *)
Definition nonempty (s : str) : bool :=
  match s with [] => false | _ => true end.

Definition nonzero (o : option Z) : bool :=
  match o with Some z => negb (z =? 0) | None => false end.

Definition _extract_name (text : str) : result str :=
  match search NAME_PATTERN text with
  | Some m => g <- group m ;; Ok (strip g)
  | None => Ok []
  end.

(* re.sub(r"[^a-z]", "", name.lower()) *)
Definition _normalize (name : str) : str :=
  filter (fun c => negb (in_cset false (NotChars [Range (chr "a") (chr "z")]) c))
         (lower name).

Definition _name_matches (candidate_name profile_username : str) : bool :=
  if negb (nonempty candidate_name) || negb (nonempty profile_username)
  then false
  else
    let norm_username := _normalize profile_username in
    let parts := split (lower candidate_name) in
    existsb (fun part => contains part norm_username)
            (filter (fun part => (2 <? List.length part)%nat) parts).

Fixpoint ints (l : list str) : result (list Z) :=
  match l with
  | [] => Ok []
  | y :: l' => n <- py_int y ;; ns <- ints l' ;; Ok (n :: ns)
  end.

Definition min_list (l : list Z) : option Z :=
  match l with
  | [] => None
  | y :: l' => Some (fold_left Z.min l' y)
  end.

Definition _extract_graduation_year (text : str) : result (option Z) :=
  years <- ints (findall YEAR_PATTERN text) ;;
  let grad_candidates := filter (fun y => (1970 <=? y) && (y <=? 2099)) years in
  Ok (min_list grad_candidates).

Definition _extract_experience_years (text : str) : result (option Z) :=
  match search EXPERIENCE_PATTERN text with
  | Some m => g <- group m ;; n <- py_int g ;; Ok (Some n)
  | None => Ok None
  end.

(** *** The scoring blocks of [check_fraud]

    Each block takes the running [(fraud_score, reasons)] and gives the
    pair after it. *)

Definition tally := (Z * list str)%type.

Definition flag (delta : Z) (reason : str) (st : tally) : tally :=
  (fst st + delta, snd st ++ [reason]).

Definition short_reason : str :=
  pystr "Resume content is empty or too short (< 50 characters)".
Definition missing_github : str := pystr "Missing GitHub profile URL".
Definition missing_linkedin : str := pystr "Missing LinkedIn profile URL".

(* A) GitHub & LinkedIn presence *)
Definition profile_presence (github_match linkedin_match : option rematch)
    (st : tally) : tally :=
  let st := match github_match with
            | None => flag 25 missing_github st
            | Some _ => st
            end in
  match linkedin_match with
  | None => flag 25 missing_linkedin st
  | Some _ => st
  end.

Definition mismatch_reason (site user candidate_name : str) : str :=
  site ++ pystr " username '" ++ user
       ++ pystr "' does not match candidate name '" ++ candidate_name ++ pystr "'".

(* B) Profile-name validation *)
Definition profile_name_validation (github_match linkedin_match : option rematch)
    (candidate_name : str) (st : tally) : result tally :=
  st <- match github_match with
        | Some m =>
            if nonempty candidate_name then
              gh_user <- group m ;;
              if negb (_name_matches candidate_name gh_user)
              then Ok (flag 30 (mismatch_reason (pystr "GitHub") gh_user candidate_name) st)
              else Ok st
            else Ok st
        | None => Ok st
        end ;;
  match linkedin_match with
  | Some m =>
      if nonempty candidate_name then
        li_user <- group m ;;
        if negb (_name_matches candidate_name li_user)
        then Ok (flag 30 (mismatch_reason (pystr "LinkedIn") li_user candidate_name) st)
        else Ok st
      else Ok st
  | None => Ok st
  end.

Definition future_reason (grad_year : Z) : str :=
  pystr "Graduation year (" ++ str_of_int grad_year ++ pystr ") is in the future".

Definition timeline_reason (exp_years grad_year max_possible : Z) : str :=
  pystr "Claimed " ++ str_of_int exp_years
    ++ pystr " years experience but graduated in " ++ str_of_int grad_year
    ++ pystr " (max possible: " ++ str_of_int max_possible ++ pystr " years)".

(* C) Education vs Experience *)
Definition education_vs_experience (current_year : Z)
    (grad_year exp_years : option Z) (st : tally) : tally :=
  let st := match grad_year with
            | Some gy =>
                if nonzero grad_year && (current_year <? gy)
                then flag 20 (future_reason gy) st
                else st
            | None => st
            end in
  match grad_year, exp_years with
  | Some gy, Some ey =>
      if nonzero grad_year && nonzero exp_years then
        let max_possible := current_year - gy in
        if (0 <=? max_possible) && (max_possible <? ey)
        then flag 30 (timeline_reason ey gy max_possible) st
        else st
      else st
  | _, _ => st
  end.

(* D) Repeated-word detection *)
Definition words (text : str) : list str :=
  findall WORD_PATTERN (lower text).

Definition repeated (text : str) : list str :=
  map fst (filter (fun wc => (25 <? snd wc)%nat) (Counter (words text))).

Definition repetition_reason (rep : list str) : str :=
  pystr "Words repeated excessively (>25 times): "
    ++ join (pystr ", ") (firstn 5 rep).

Definition repeated_word_detection (text : str) (st : tally) : tally :=
  match repeated text with
  | [] => st
  | rep => flag 15 (repetition_reason rep) st
  end.

Definition unrealistic_reason (exp_years : Z) : str :=
  pystr "Unrealistic experience claimed: " ++ str_of_int exp_years
    ++ pystr " years (>40)".

(* E) Unrealistic experience *)
Definition unrealistic_experience (exp_years : option Z) (st : tally) : tally :=
  match exp_years with
  | Some ey =>
      if nonzero exp_years && (40 <? ey)
      then (Z.max (fst st) 50, snd st ++ [unrealistic_reason ey])
      else st
  | None => st
  end.

(* Cap and determine status *)
Definition report (filename text : str) (st : tally) : FraudReport :=
  let fraud_score := Z.min (fst st) 100 in
  {| filename := filename;
     fraud_score := fraud_score;
     fraud_status := if 50 <=? fraud_score then Suspicious else Genuine;
     reasons := snd st;
     extracted_preview := firstn 300 text |}.

(* The blocks A to C in the order they run: the tally they leave, with
   the experience figure block E reads *)
Definition profile_and_timeline_rules (current_year : Z) (text : str)
    : result (tally * option Z) :=
  let github_match := search GITHUB_PATTERN text in
  let linkedin_match := search LINKEDIN_PATTERN text in
  let st := profile_presence github_match linkedin_match (0, []) in
  candidate_name <- _extract_name text ;;
  st <- profile_name_validation github_match linkedin_match candidate_name st ;;
  grad_year <- _extract_graduation_year text ;;
  exp_years <- _extract_experience_years text ;;
  let st := education_vs_experience current_year grad_year exp_years st in
  Ok (st, exp_years).

(* The additive rules, A to D: the tally before the override of block E *)
Definition additive_rules (current_year : Z) (text : str)
    : result (tally * option Z) :=
  a <- profile_and_timeline_rules current_year text ;;
  let st := repeated_word_detection text (fst a) in
  Ok (st, snd a).

(** [current_year] stands for [datetime.now().year]. *)
Definition check_fraud (current_year : Z) (text filename : str)
    : result FraudReport :=
  (* F) Empty resume check *)
  if (List.length (strip text) <? 50)%nat then
    Ok {| filename := filename;
          fraud_score := 100;
          fraud_status := Suspicious;
          reasons := [short_reason];
          extracted_preview := firstn 300 text |}
  else
    a <- additive_rules current_year text ;;
    let st := unrealistic_experience (snd a) (fst a) in
    Ok (report filename text st).

End FraudChecker.

(** * Text extraction: [extractor.py], and the upload route's use of it

    The PDF and DOCX libraries are collaborators: [Documents] says what
    they read at a path.  [os.path] is the one of a POSIX system. *)

(* what a call into a library gives: a value, or an exception *)
Inductive outcome (A : Type) :=
| Got (a : A)
| Threw.
Arguments Got {A} a.
Arguments Threw {A}.

Class Documents := {
  (* PdfReader(filepath).pages, with what extract_text() gives on each *)
  PdfReader : str -> outcome (list (outcome str));
  (* the text of each of Document(filepath).paragraphs *)
  Document : str -> outcome (list str)
}.

(* what extract_text gives: the text, the library's exception raised
   again, or ValueError("Unsupported file type: " + ext) *)
Inductive extracted :=
| Text (text : str)
| LibraryError
| UnsupportedFileType (ext : str).

Definition newline : str := [10%N].

(* s.rfind(c): the last index of [c], -1 when there is none *)
Fixpoint rfind_from (c : char) (s : str) (i last : Z) : Z :=
  match s with
  | [] => last
  | x :: s' => rfind_from c s' (i + 1)%Z (if N.eqb x c then i else last)
  end.

Definition rfind (c : char) (s : str) : Z := rfind_from c s 0%Z (-1)%Z.

(* s[i:j], for 0 <= i *)
Definition slice (s : str) (i j : Z) : str :=
  firstn (Z.to_nat (j - i)) (skipn (Z.to_nat i) s).

(* os.path.splitext(p): the extension starts at the last dot of the last
   component, unless only dots come before it there *)
Definition splitext (p : str) : str * str :=
  let sepIndex := rfind (chr "/") p in
  let dotIndex := rfind (chr ".") p in
  if (sepIndex <? dotIndex)%Z then
    (* skip all leading dots *)
    if existsb (fun c => negb (N.eqb c (chr "."))) (slice p (sepIndex + 1)%Z dotIndex)
    then (firstn (Z.to_nat dotIndex) p, skipn (Z.to_nat dotIndex) p)
    else (p, [])
  else (p, []).

Definition endswith_sep (a : str) : bool :=
  match rev a with
  | c :: _ => N.eqb c (chr "/")
  | [] => false
  end.

(* os.path.join(a, b) *)
Definition path_join (a b : str) : str :=
  if startswith (pystr "/") b then b
  else if negb (nonempty a) || endswith_sep a then a ++ b
  else a ++ pystr "/" ++ b.

Section Extractor.

Context {U : UnicodeData}.
Context {D : Documents}.

(* the loop over reader.pages: the texts of the pages that have one *)
Fixpoint page_texts (pages : list (outcome str)) : outcome (list str) :=
  match pages with
  | [] => Got []
  | page :: pages' =>
      match page with
      | Threw => Threw
      | Got page_text =>
          match page_texts pages' with
          | Threw => Threw
          | Got text_parts =>
              Got (if nonempty page_text then page_text :: text_parts
                   else text_parts)
          end
      end
  end.

Definition extract_text_from_pdf (filepath : str) : extracted :=
  match PdfReader filepath with
  | Threw => LibraryError
  | Got pages =>
      match page_texts pages with
      | Threw => LibraryError
      | Got text_parts => Text (join newline text_parts)
      end
  end.

Definition extract_text_from_docx (filepath : str) : extracted :=
  match Document filepath with
  | Threw => LibraryError
  | Got paragraphs => Text (join newline paragraphs)
  end.

Definition extract_text (filepath : str) : extracted :=
  let ext := lower (snd (splitext filepath)) in
  if str_eqb ext (pystr ".pdf") then extract_text_from_pdf filepath
  else if str_eqb ext (pystr ".docx") then extract_text_from_docx filepath
  else UnsupportedFileType ext.

(** [main.py]: the extension check of the upload route, and the path it
    saves the upload at and extracts from. *)

Definition ALLOWED_EXTENSIONS : list str := [pystr ".pdf"; pystr ".docx"].

Definition extension_allowed (filename : str) : bool :=
  let ext := lower (snd (splitext filename)) in
  existsb (str_eqb ext) ALLOWED_EXTENSIONS.

Definition upload_path (UPLOAD_DIR filename : str) : str :=
  path_join UPLOAD_DIR filename.

End Extractor.

(** * Definitions for the statements *)

(** ** What a successful match is

    [matches ic ml r st st'] says that [r] can match from position [st]
    to position [st'].  The backtracking matcher only ever succeeds
    through such a match ([rmatch_sound]); which one it picks is a matter
    of priority and is studied where it is needed. *)

Section MatchRelation.

Context {U : UnicodeData}.
Variables ic ml : bool.

Inductive rep_matches (cs : cset) : nat -> option nat -> mstate -> mstate -> Prop :=
| rep_stop hi st : rep_matches cs 0 hi st st
| rep_more lo hi c b s g st' :
    hi <> Some O ->
    in_cset ic cs c = true ->
    rep_matches cs (pred lo) (option_map pred hi)
      {| m_before := Some c; m_rest := s; m_group := g |} st' ->
    rep_matches cs lo hi {| m_before := b; m_rest := c :: s; m_group := g |} st'.

Inductive matches : regex -> mstate -> mstate -> Prop :=
| matches_Eps st : matches Eps st st
| matches_Lit x c b s g :
    N.eqb c x || (ic && ignorecase_eq c x) = true ->
    matches (Lit x) {| m_before := b; m_rest := c :: s; m_group := g |}
                    {| m_before := Some c; m_rest := s; m_group := g |}
| matches_In cs c b s g :
    in_cset ic cs c = true ->
    matches (OneOf cs) {| m_before := b; m_rest := c :: s; m_group := g |}
                    {| m_before := Some c; m_rest := s; m_group := g |}
| matches_Seq r1 r2 st st1 st2 :
    matches r1 st st1 -> matches r2 st1 st2 -> matches (Seq r1 r2) st st2
| matches_AltL r1 r2 st st' : matches r1 st st' -> matches (Alt r1 r2) st st'
| matches_AltR r1 r2 st st' : matches r2 st st' -> matches (Alt r1 r2) st st'
| matches_OptY r st st' : matches r st st' -> matches (Opt r) st st'
| matches_OptN r st : matches (Opt r) st st
| matches_Rep lo hi cs st st' :
    rep_matches cs lo hi st st' -> matches (Rep lo hi cs) st st'
| matches_Group r st st' :
    matches r st st' ->
    matches (Group r) st {| m_before := m_before st'; m_rest := m_rest st';
                            m_group := Some (consumed st st') |}
| matches_Bol st : at_line_start ml st = true -> matches Bol st st
| matches_WordB st : at_boundary st = true -> matches WordB st st.

End MatchRelation.

(* the patterns whose every match goes through the group *)
Fixpoint sets_group (r : regex) : bool :=
  match r with
  | Group _ => true
  | Seq r1 r2 => sets_group r1 || sets_group r2
  | Alt r1 r2 => sets_group r1 && sets_group r2
  | _ => false
  end.

(* the two strings group 1 of the year pattern can hold *)
Definition century (y : str) : Prop := y = pystr "19" \/ y = pystr "20".

(** ** Counting and order *)

Definition str_eq_dec : forall a b : str, {a = b} + {a <> b} :=
  list_eq_dec N.eq_dec.

(* how many times [w] occurs in [ws] *)
Definition occurrences (w : str) (ws : list str) : nat :=
  count_occ str_eq_dec ws w.

(* where [w] first occurs in [ws]; the length of [ws] if nowhere *)
Fixpoint first_index (w : str) (ws : list str) : nat :=
  match ws with
  | [] => O
  | x :: ws' => if str_eqb x w then O else S (first_index w ws')
  end.

(* d[w], 0 for a missing key *)
Fixpoint get (w : str) (d : list (str * nat)) : nat :=
  match d with
  | [] => O
  | (k, c) :: d' => if str_eqb k w then c else get w d'
  end.

(* the keys of a counter, ordered by where they first occur in [ws] *)
Definition by_first_occurrence (ws : list str) (keys : list str) : Prop :=
  StronglySorted (fun a b => (first_index a ws < first_index b ws)%nat) keys.

(** ** The tokens of the repetition block

    The tokens as the specification words them: the maximal runs of
    letters of length 3 or more. *)

Definition is_letter (c : char) : bool :=
  in_range (chr "a") (chr "z") c || in_range (chr "A") (chr "Z") c.

Definition long_run (run : str) : list str :=
  if (3 <=? List.length run)%nat then [run] else [].

(* [cur] is the run being read, reversed *)
Fixpoint letter_runs_from (cur : str) (s : str) : list str :=
  match s with
  | [] => long_run (rev cur)
  | c :: s' =>
      if is_letter c then letter_runs_from (c :: cur) s'
      else long_run (rev cur) ++ letter_runs_from [] s'
  end.

Definition letter_runs (s : str) : list str := letter_runs_from [] s.

(** The same tokens for any reading of "alphabetic": the maximal runs,
    of length 3 or more, of the characters [isalpha] holds of.  With
    [is_letter] these are [letter_runs]; with [str.isalpha] a letter
    with an accent belongs to a run. *)
Fixpoint alphabetic_runs_from (isalpha : char -> bool) (cur : str) (s : str)
    : list str :=
  match s with
  | [] => long_run (rev cur)
  | c :: s' =>
      if isalpha c then alphabetic_runs_from isalpha (c :: cur) s'
      else long_run (rev cur) ++ alphabetic_runs_from isalpha [] s'
  end.

Definition alphabetic_runs (isalpha : char -> bool) (s : str) : list str :=
  alphabetic_runs_from isalpha [] s.

(* the letters a text starts with, and what follows them *)
Fixpoint letters_prefix (s : str) : str :=
  match s with
  | c :: s' => if is_letter c then c :: letters_prefix s' else []
  | [] => []
  end.

Fixpoint after_letters (s : str) : str :=
  match s with
  | c :: s' => if is_letter c then after_letters s' else s
  | [] => []
  end.

Fixpoint last_before (b : option char) (s : str) : option char :=
  match s with
  | c :: s' => if is_letter c then last_before (Some c) s' else b
  | [] => b
  end.

Definition word_at (s : str) : option rematch :=
  if (3 <=? List.length (letters_prefix s))%nat
  then Some {| matched := letters_prefix s; group1 := None |}
  else None.

Section ExperienceDigits.

Context {U : UnicodeData}.

(* the digits of the first experience phrase of the text, if it has one *)
Definition experience_digits (text : str) : option str :=
  match search EXPERIENCE_PATTERN text with
  | Some m => group1 m
  | None => None
  end.

End ExperienceDigits.

(** ** Concrete resumes *)

Definition resume_pdf : str := pystr "resume.pdf".

(* first capitalized line John Smith, both profile links, graduation
   year 2020, five years of experience *)
Definition john_smith_resume : str := pystr "John Smith
john.smith@example.com
github.com/johnsmith99
linkedin.com/in/johnsmith
Graduated in 2020, B.Sc. Computer Science
5 years of experience in software development
".

(* both profile links matching the name, 42 years of experience *)
Definition veteran_resume : str := pystr "Jane Miller
jane.miller@example.com
github.com/janemiller
linkedin.com/in/jane-miller
42 years of experience in civil engineering
".


(* 4301 digits in front of the experience phrase *)
Definition long_digits_resume : str :=
  repeat (chr "1") 4301 ++ pystr " years of experience".

Fixpoint times (n : nat) (s : str) : str :=
  match n with
  | O => []
  | S n' => s ++ times n' s
  end.

Definition lorem_25 : str := times 25 (pystr "lorem ").
Definition lorem_26 : str := times 26 (pystr "lorem ").
Definition alpha_beta_26 : str := times 26 (pystr "alpha beta ").

(* six different words, 26 times each *)
Definition keywords_26 : str :=
  times 26 (pystr "java python react docker linux cloud ").

(* the French word for summer, e-acute t e-acute: code points 233, 116,
   233; and the word with a blank after it, 26 times *)
Definition ete : str := [233%N; 116%N; 233%N].
Definition ete_26 : str := times 26 (ete ++ [32%N]).

Definition john_smith_report : FraudReport := {|
  filename := resume_pdf;
  fraud_score := 0;
  fraud_status := Genuine;
  reasons := [];
  extracted_preview := firstn 300 john_smith_resume
|}.

(** The graduation year as the specification words it: the minimum of
    the whole four-digit tokens that begin with 19 or 20 and lie in
    [[1970, 2099]]. *)
Definition YEAR_TOKEN : pattern := {|
  p_regex := seqs [WordB; Alt (L "19") (L "20"); Rep 2 (Some 2) Digit; WordB];
  p_ignorecase := false;
  p_multiline := false
|}.

Definition graduation_year_spec {U : UnicodeData} (text : str) : result (option Z) :=
  years <- ints (findall YEAR_TOKEN text) ;;
  Ok (min_list (filter (fun y => (1970 <=? y) && (y <=? 2099))%Z years)).

Definition veteran_report : FraudReport := {|
  filename := resume_pdf;
  fraud_score := 50;
  fraud_status := Suspicious;
  reasons := [pystr "Unrealistic experience claimed: 42 years (>40)"];
  extracted_preview := firstn 300 veteran_resume
|}.

Definition alpha_beta_report : FraudReport := {|
  filename := resume_pdf;
  fraud_score := 65;
  fraud_status := Suspicious;
  reasons := [pystr "Missing GitHub profile URL";
              pystr "Missing LinkedIn profile URL";
              pystr "Words repeated excessively (>25 times): alpha, beta"];
  extracted_preview := firstn 300 alpha_beta_26
|}.

(** ** The reasons a report can give *)

Definition plain_reason (reason : str) : Prop :=
  reason = short_reason
  \/ reason = missing_github
  \/ reason = missing_linkedin
  \/ (exists user name, reason = mismatch_reason (pystr "GitHub") user name)
  \/ (exists user name, reason = mismatch_reason (pystr "LinkedIn") user name)
  \/ (exists rep, rep <> [] /\ reason = repetition_reason rep)
  \/ (exists e, (40 < e)%Z /\ reason = unrealistic_reason e).

(* the characters of a list of tokens, all told *)
Definition total_length (ws : list str) : nat :=
  fold_right (fun w n => (List.length w + n)%nat) O ws.

(** ** Positions in a text and runs of a character class *)

(* the character before the position that follows [pre] *)
Definition last_char (b : option char) (pre : str) : option char :=
  fold_left (fun _ c => Some c) pre b.

Section ClassRuns.

Context {U : UnicodeData}.
Variable ic : bool.
Variable cs : cset.

(* the characters of the class a text starts with, and what follows *)
Fixpoint class_prefix (s : str) : str :=
  match s with
  | c :: s' => if in_cset ic cs c then c :: class_prefix s' else []
  | [] => []
  end.

Fixpoint class_rest (s : str) : str :=
  match s with
  | c :: s' => if in_cset ic cs c then class_rest s' else s
  | [] => []
  end.

End ClassRuns.

(* a line starts here with a capital letter and a small letter *)
Definition name_line_start (b : option char) (s : str) : bool :=
  match b with None => true | Some c => N.eqb c 10%N end
  && match s with
     | c1 :: c2 :: _ =>
         in_range (chr "A") (chr "Z") c1 && in_range (chr "a") (chr "z") c2
     | _ => false
     end.

(** ** Concrete documents *)

(* a PDF of an empty page and a page of blanks, a DOCX of three
   paragraphs without text *)
Definition blank_documents : Documents := {|
  PdfReader := fun _ => Got [Got []; Got (pystr "   "); Got []; Got (pystr " ")];
  Document := fun _ => Got [[]; pystr "  "; []]
|}.

(** * Properties of the matcher *)

Section MatchSpec.

Context {U : UnicodeData}.
Variables ic ml : bool.

Lemma or_else_Some A (a b : option A) x :
  or_else a b = Some x -> a = Some x \/ b = Some x.
Proof. destruct a; simpl; auto. Qed.

Lemma rep_greedy_sound A cs (k : mstate -> option A) x :
  forall s lo hi b g,
    rep_greedy ic cs lo hi b s g k = Some x ->
    exists st', rep_matches ic cs lo hi
                  {| m_before := b; m_rest := s; m_group := g |} st'
                /\ k st' = Some x.
Proof.
  assert (Hstop : forall lo hi st,
    match lo with O => k st | S _ => None end = Some x ->
    exists st', rep_matches ic cs lo hi st st' /\ k st' = Some x).
  { intros [|lo] hi st H; [|discriminate]. exists st. split; [constructor|assumption]. }
  induction s as [|c s IH]; intros lo hi b g H.
  - simpl in H. destruct hi as [[|h]|]; apply Hstop; assumption.
  - simpl in H.
    assert (Hgo : (if in_cset ic cs c
                   then or_else (rep_greedy ic cs (pred lo) (option_map pred hi) (Some c) s g k)
                          match lo with
                          | O => k {| m_before := b; m_rest := c :: s; m_group := g |}
                          | S _ => None
                          end
                   else match lo with
                        | O => k {| m_before := b; m_rest := c :: s; m_group := g |}
                        | S _ => None
                        end) = Some x ->
                  hi <> Some O ->
                  exists st', rep_matches ic cs lo hi
                    {| m_before := b; m_rest := c :: s; m_group := g |} st'
                    /\ k st' = Some x).
    { intros H' Hhi. destruct (in_cset ic cs c) eqn:Hc.
      - apply or_else_Some in H'. destruct H' as [H'|H'].
        + apply IH in H'. destruct H' as (st' & Hm & Hk).
          exists st'. split; [|assumption]. econstructor; eassumption.
        + apply Hstop; assumption.
      - apply Hstop; assumption. }
    destruct hi as [[|h]|].
    + apply Hstop; assumption.
    + apply Hgo; [assumption|discriminate].
    + apply Hgo; [assumption|discriminate].
Qed.

Lemma rmatch_sound A r :
  forall st (k : mstate -> option A) x,
    rmatch ic ml r st k = Some x ->
    exists st', matches ic ml r st st' /\ k st' = Some x.
Proof.
  induction r; intros st k x H; simpl in H.
  - exists st. split; [constructor|assumption].
  - destruct st as [b [|c' s] g]; simpl in H; [discriminate|].
    destruct (N.eqb c' c || (ic && ignorecase_eq c' c)) eqn:E; [|discriminate].
    eexists. split; [constructor; exact E|exact H].
  - destruct st as [b [|c' s] g]; simpl in H; [discriminate|].
    destruct (in_cset ic cs c') eqn:E; [|discriminate].
    eexists. split; [constructor; exact E|exact H].
  - apply IHr1 in H. destruct H as (st1 & H1 & H).
    apply IHr2 in H. destruct H as (st2 & H2 & H).
    exists st2. split; [econstructor; eassumption|assumption].
  - apply or_else_Some in H. destruct H as [H|H].
    + apply IHr1 in H. destruct H as (st' & Hm & Hk).
      exists st'. split; [apply matches_AltL|]; assumption.
    + apply IHr2 in H. destruct H as (st' & Hm & Hk).
      exists st'. split; [apply matches_AltR|]; assumption.
  - apply or_else_Some in H. destruct H as [H|H].
    + apply IHr in H. destruct H as (st' & Hm & Hk).
      exists st'. split; [apply matches_OptY|]; assumption.
    + exists st. split; [apply matches_OptN|assumption].
  - destruct st as [b s g]; simpl in H.
    apply rep_greedy_sound in H. destruct H as (st' & Hm & Hk).
    exists st'. split; [constructor|]; assumption.
  - apply IHr in H. destruct H as (st' & Hm & Hk).
    eexists. split; [apply matches_Group; eassumption|assumption].
  - destruct (at_line_start ml st) eqn:E; [|discriminate].
    exists st. split; [constructor|]; assumption.
  - destruct (at_boundary st) eqn:E; [|discriminate].
    exists st. split; [constructor|]; assumption.
Qed.

(** Group 1 is only written by a group. *)

Lemma rep_matches_group cs lo hi st st' :
  rep_matches ic cs lo hi st st' -> m_group st' = m_group st.
Proof. induction 1; simpl in *; auto. Qed.

Lemma matches_keeps_group r st st' :
  matches ic ml r st st' -> has_group r = false -> m_group st' = m_group st.
Proof.
  induction 1; simpl; intros Hg; try discriminate;
    try (apply orb_false_iff in Hg; destruct Hg as [Hg1 Hg2]); auto.
  - rewrite IHmatches2, IHmatches1; auto.
  - eapply rep_matches_group; eassumption.
Qed.

Lemma matches_group_mono r st st' :
  matches ic ml r st st' -> m_group st <> None -> m_group st' <> None.
Proof.
  induction 1; simpl; intros Hg; auto; try discriminate.
  erewrite rep_matches_group; eassumption.
Qed.

Lemma matches_sets_group r st st' :
  matches ic ml r st st' -> sets_group r = true -> m_group st' <> None.
Proof.
  induction 1; simpl; intros Hg; try discriminate; auto.
  - apply orb_true_iff in Hg. destruct Hg as [Hg|Hg].
    + eapply matches_group_mono; eauto.
    + auto.
  - apply andb_true_iff in Hg. tauto.
  - apply andb_true_iff in Hg. tauto.
Qed.

(** A match only moves forward: what is left is a suffix of what was. *)

Lemma rep_matches_suffix cs lo hi st st' :
  rep_matches ic cs lo hi st st' ->
  exists pre, m_rest st = pre ++ m_rest st'.
Proof.
  induction 1; simpl in *.
  - exists []. reflexivity.
  - destruct IHrep_matches as (pre & ->). exists (c :: pre). reflexivity.
Qed.

Lemma matches_suffix r st st' :
  matches ic ml r st st' -> exists pre, m_rest st = pre ++ m_rest st'.
Proof.
  induction 1; simpl in *;
    try (exists []; reflexivity); try (exists [c]; reflexivity); auto.
  - destruct IHmatches1 as (p1 & ->). destruct IHmatches2 as (p2 & ->).
    exists (p1 ++ p2). rewrite app_assoc. reflexivity.
  - eapply rep_matches_suffix; eassumption.
Qed.

Lemma consumed_app (st st' : mstate) pre :
  m_rest st = pre ++ m_rest st' -> consumed st st' = pre.
Proof.
  intros E. unfold consumed. rewrite E, length_app.
  replace (List.length pre + List.length (m_rest st') - List.length (m_rest st'))%nat
    with (List.length pre + 0)%nat by lia.
  rewrite firstn_app_2. simpl. apply app_nil_r.
Qed.

(** Inversion, one lemma per construct. *)

Lemma matches_Seq_inv r1 r2 st st' :
  matches ic ml (Seq r1 r2) st st' ->
  exists st1, matches ic ml r1 st st1 /\ matches ic ml r2 st1 st'.
Proof. inversion 1; subst; eauto. Qed.

Lemma matches_Alt_inv r1 r2 st st' :
  matches ic ml (Alt r1 r2) st st' -> matches ic ml r1 st st' \/ matches ic ml r2 st st'.
Proof. inversion 1; subst; auto. Qed.

Lemma matches_Lit_inv x st st' :
  matches ic ml (Lit x) st st' ->
  exists c s,
    m_rest st = c :: s
    /\ N.eqb c x || (ic && ignorecase_eq c x) = true
    /\ st' = {| m_before := Some c; m_rest := s; m_group := m_group st |}.
Proof. inversion 1; subst; simpl; eauto. Qed.

Lemma matches_Group_inv r st st' :
  matches ic ml (Group r) st st' ->
  exists st1,
    matches ic ml r st st1
    /\ st' = {| m_before := m_before st1; m_rest := m_rest st1;
                m_group := Some (consumed st st1) |}.
Proof. inversion 1; subst; eauto. Qed.

Lemma matches_Rep_inv lo hi cs st st' :
  matches ic ml (Rep lo hi cs) st st' -> rep_matches ic cs lo hi st st'.
Proof. inversion 1; subst; auto. Qed.

Lemma matches_anchor_inv r st st' :
  r = WordB \/ r = Bol \/ r = Eps ->
  matches ic ml r st st' -> st' = st.
Proof. intros [->|[->| ->]]; inversion 1; subst; reflexivity. Qed.

End MatchSpec.

Section MatchAt.

Context {U : UnicodeData}.

Lemma match_at_sound p b s m :
  match_at p b s = Some m ->
  exists st',
    matches (p_ignorecase p) (p_multiline p) (p_regex p)
      {| m_before := b; m_rest := s; m_group := None |} st'
    /\ group1 m = m_group st'
    /\ s = matched m ++ m_rest st'.
Proof.
  unfold match_at. intros H. apply rmatch_sound in H.
  destruct H as (st' & Hm & Hk). injection Hk as <-. simpl.
  exists st'. split; [assumption|]. split; [reflexivity|].
  destruct (matches_suffix Hm) as (pre & E). simpl in E.
  rewrite (@consumed_app {| m_before := b; m_rest := s; m_group := None |} st' pre E).
  exact E.
Qed.

Lemma search_from_Some p s :
  forall b m, search_from p b s = Some m ->
    exists b' s', match_at p b' s' = Some m.
Proof.
  induction s as [|c s IH]; intros b m H; simpl in H.
  - destruct (match_at p b []) eqn:E; [|discriminate].
    injection H as ->. eauto.
  - destruct (match_at p b (c :: s)) eqn:E.
    + injection H as ->. eauto.
    + eapply IH; eassumption.
Qed.

(** A pattern whose every match goes through its group gives match
    objects on which [group] succeeds. *)
Lemma search_group p s m :
  sets_group (p_regex p) = true ->
  search p s = Some m ->
  exists g, group m = Ok g.
Proof.
  intros Hp H. apply search_from_Some in H. destruct H as (b' & s' & H).
  apply match_at_sound in H. destruct H as (st' & Hm & Hg & _).
  pose proof (matches_sets_group Hm Hp) as Hne.
  unfold group. rewrite Hg. destruct (m_group st'); [eauto|congruence].
Qed.

End MatchAt.

(** * Properties of the extractors *)

Section Extractors.

Context {U : UnicodeData}.

Lemma lits_rest ml l :
  forall st st', matches false ml (lits l) st st' -> m_rest st = l ++ m_rest st'.
Proof.
  assert (Hlit : forall c st st', matches false ml (Lit c) st st' ->
            m_rest st = c :: m_rest st').
  { intros c st st' H. apply matches_Lit_inv in H.
    destruct H as (c' & s & E & Hc & ->). simpl.
    rewrite orb_false_r in Hc. apply N.eqb_eq in Hc. congruence. }
  induction l as [|c l IH]; intros st st' H.
  - apply matches_anchor_inv in H; [subst; reflexivity|auto].
  - destruct l as [|c' l].
    + apply Hlit in H. exact H.
    + change (lits (c :: c' :: l)) with (Seq (Lit c) (lits (c' :: l))) in H.
      apply matches_Seq_inv in H. destruct H as (st1 & H1 & H2).
      apply Hlit in H1. apply IH in H2. rewrite H1, H2. reflexivity.
Qed.

(** Group 1 of the year pattern is the century: [findall] lists the
    capture of [(19|20)], not the four digits. *)
Lemma year_group b s m :
  match_at YEAR_PATTERN b s = Some m ->
  group1 m = Some (pystr "19") \/ group1 m = Some (pystr "20").
Proof.
  intros H. apply match_at_sound in H. destruct H as (st' & Hm & Hg & _).
  simpl in Hm.
  apply matches_Seq_inv in Hm. destruct Hm as (st1 & H1 & Hm).
  apply matches_anchor_inv in H1; [subst st1|auto].
  apply matches_Seq_inv in Hm. destruct Hm as (st2 & H2 & Hm).
  apply matches_keeps_group in Hm; [|reflexivity].
  rewrite Hg, Hm.
  apply matches_Group_inv in H2. destruct H2 as (st3 & H3 & ->). simpl.
  apply matches_Alt_inv in H3.
  destruct H3 as [H3|H3]; apply lits_rest in H3;
    rewrite (consumed_app _ _ _ H3); auto.
Qed.

Lemma findall_year_century s :
  forall b skip, Forall century (findall_from YEAR_PATTERN b s skip).
Proof.
  induction s as [|c s IH]; intros b skip.
  - destruct skip; simpl; [|constructor].
    destruct (match_at YEAR_PATTERN b []) eqn:E; constructor; [|constructor].
    apply year_group in E. unfold findall_item. simpl.
    destruct E as [-> | ->]; [left|right]; reflexivity.
  - destruct skip; simpl; [|apply IH].
    destruct (match_at YEAR_PATTERN b (c :: s)) eqn:E; [|apply IH].
    constructor; [|apply IH].
    apply year_group in E. unfold findall_item. simpl.
    destruct E as [-> | ->]; [left|right]; reflexivity.
Qed.

Lemma ints_century l :
  Forall century l ->
  exists ns, ints l = Ok ns /\ Forall (fun n => n = 19%Z \/ n = 20%Z) ns.
Proof.
  induction 1 as [|y l Hy Hl IH].
  - exists []. split; [reflexivity|constructor].
  - destruct IH as (ns & E & Hns).
    destruct Hy as [-> | ->]; simpl; rewrite E; simpl.
    + exists (19%Z :: ns). split; [reflexivity|constructor; auto].
    + exists (20%Z :: ns). split; [reflexivity|constructor; auto].
Qed.

(** Neither century lies in [[1970, 2099]]: no text has a graduation
    year. *)
Lemma extract_graduation_year_none text :
  _extract_graduation_year text = Ok None.
Proof.
  unfold _extract_graduation_year.
  destruct (ints_century (findall_year_century text None 0)) as (ns & E & Hns).
  unfold findall. rewrite E. simpl.
  assert (Hf : filter (fun y => (1970 <=? y) && (y <=? 2099))%Z ns = []).
  { clear E. induction Hns as [|n ns Hn Hns IH]; [reflexivity|].
    simpl. rewrite IH. destruct Hn as [-> | ->]; reflexivity. }
  rewrite Hf. reflexivity.
Qed.

Lemma extract_name_ok text : exists name, _extract_name text = Ok name.
Proof.
  unfold _extract_name. destruct (search NAME_PATTERN text) eqn:E; [|eauto].
  apply search_group in E; [|reflexivity].
  destruct E as (g & ->). simpl. eauto.
Qed.

Lemma profile_name_validation_ok text name st :
  exists st',
    profile_name_validation (search GITHUB_PATTERN text)
      (search LINKEDIN_PATTERN text) name st = Ok st'
    /\ (fst st <= fst st')%Z.
Proof.
  unfold profile_name_validation.
  assert (Hstep : forall site p st0, sets_group (p_regex p) = true ->
    exists st1,
      match search p text with
      | Some m =>
          if nonempty name then
            user <- group m ;;
            if negb (_name_matches name user)
            then Ok (flag 30 (mismatch_reason site user name) st0)
            else Ok st0
          else Ok st0
      | None => Ok st0
      end = Ok st1 /\ (fst st0 <= fst st1)%Z).
  { intros site p st0 Hp. destruct (search p text) eqn:E.
    - destruct (nonempty name); [|exists st0; split; [reflexivity|lia]].
      apply search_group in E; [|assumption]. destruct E as (g & ->). simpl.
      destruct (negb (_name_matches name g)).
      + eexists. split; [reflexivity|]. simpl. lia.
      + exists st0. split; [reflexivity|lia].
    - exists st0. split; [reflexivity|lia]. }
  destruct (Hstep (pystr "GitHub") GITHUB_PATTERN st eq_refl) as (st1 & E1 & L1).
  rewrite E1. simpl.
  destruct (Hstep (pystr "LinkedIn") LINKEDIN_PATTERN st1 eq_refl) as (st2 & E2 & L2).
  rewrite E2. exists st2. split; [reflexivity|lia].
Qed.

End Extractors.

(** * Properties of [Counter] *)

Section CounterFacts.

Lemma str_eqb_eq a b : str_eqb a b = true <-> a = b.
Proof.
  unfold str_eqb. destruct (list_eq_dec N.eq_dec a b); split; congruence.
Qed.

Lemma str_eqb_neq a b : str_eqb a b = false <-> a <> b.
Proof.
  unfold str_eqb. destruct (list_eq_dec N.eq_dec a b); split; congruence.
Qed.

Lemma counter_add_in w d :
  In w (map fst d) -> map fst (counter_add w d) = map fst d.
Proof.
  induction d as [|[k c] d IH]; simpl; intros H; [contradiction|].
  destruct (str_eqb k w) eqn:E; [reflexivity|].
  simpl. f_equal. apply IH. destruct H as [H|H]; [|assumption].
  apply str_eqb_neq in E. contradiction.
Qed.

Lemma counter_add_new w d :
  ~ In w (map fst d) -> counter_add w d = d ++ [(w, 1%nat)].
Proof.
  induction d as [|[k c] d IH]; simpl; intros H; [reflexivity|].
  destruct (str_eqb k w) eqn:E.
  - apply str_eqb_eq in E. tauto.
  - f_equal. apply IH. tauto.
Qed.

Lemma get_counter_add k w d :
  get k (counter_add w d) = if str_eqb w k then S (get k d) else get k d.
Proof.
  induction d as [|[x c] d IH]; simpl.
  - destruct (str_eqb w k); reflexivity.
  - destruct (str_eqb x w) eqn:Exw; simpl.
    + apply str_eqb_eq in Exw. subst x.
      destruct (str_eqb w k); reflexivity.
    + destruct (str_eqb x k) eqn:Exk; [|apply IH].
      apply str_eqb_eq in Exk. subst x.
      destruct (str_eqb w k) eqn:Ewk; [|reflexivity].
      apply str_eqb_eq in Ewk. apply str_eqb_neq in Exw. congruence.
Qed.

Lemma get_missing k d : ~ In k (map fst d) -> get k d = O.
Proof.
  induction d as [|[x c] d IH]; simpl; intros H; [reflexivity|].
  destruct (str_eqb x k) eqn:E.
  - apply str_eqb_eq in E. tauto.
  - apply IH. tauto.
Qed.

Lemma get_in k c d :
  NoDup (map fst d) -> In (k, c) d -> get k d = c.
Proof.
  induction d as [|[x n] d IH]; simpl; intros Hnd H; [contradiction|].
  inversion Hnd as [|? ? Hx Hd]; subst.
  destruct H as [H|H].
  - injection H as -> ->.
    destruct (str_eqb k k) eqn:E; [reflexivity|]. apply str_eqb_neq in E. congruence.
  - destruct (str_eqb x k) eqn:E; [|auto].
    apply str_eqb_eq in E. subst x.
    exfalso. apply Hx. apply (in_map fst) in H. exact H.
Qed.

Lemma in_get k d : In k (map fst d) -> In (k, get k d) d.
Proof.
  induction d as [|[x n] d IH]; simpl; intros H; [contradiction|].
  destruct (str_eqb x k) eqn:E.
  - apply str_eqb_eq in E. subst. auto.
  - right. apply IH. destruct H as [H|H]; [|assumption].
    apply str_eqb_neq in E. contradiction.
Qed.

Lemma Counter_snoc ws w : Counter (ws ++ [w]) = counter_add w (Counter ws).
Proof. unfold Counter. rewrite fold_left_app. reflexivity. Qed.

Lemma occurrences_snoc k ws w :
  occurrences k (ws ++ [w]) =
  if str_eqb w k then S (occurrences k ws) else occurrences k ws.
Proof.
  unfold occurrences. rewrite count_occ_app. simpl.
  destruct (str_eq_dec w k) as [E|E].
  - apply str_eqb_eq in E. rewrite E. lia.
  - apply str_eqb_neq in E. rewrite E. lia.
Qed.

Lemma first_index_snoc_in k ws w :
  In k ws -> first_index k (ws ++ [w]) = first_index k ws.
Proof.
  induction ws as [|x ws IH]; simpl; intros H; [contradiction|].
  destruct (str_eqb x k) eqn:E; [reflexivity|].
  f_equal. apply IH. destruct H as [H|H]; [|assumption].
  apply str_eqb_neq in E. contradiction.
Qed.

Lemma first_index_snoc_new ws w :
  ~ In w ws -> first_index w (ws ++ [w]) = List.length ws.
Proof.
  induction ws as [|x ws IH]; simpl; intros H.
  - destruct (str_eqb w w) eqn:E; [reflexivity|]. apply str_eqb_neq in E. congruence.
  - destruct (str_eqb x w) eqn:E.
    + apply str_eqb_eq in E. tauto.
    + f_equal. apply IH. tauto.
Qed.

Lemma first_index_lt k ws : In k ws -> (first_index k ws < List.length ws)%nat.
Proof.
  induction ws as [|x ws IH]; simpl; intros H; [contradiction|].
  destruct (str_eqb x k) eqn:E; [lia|].
  apply str_eqb_neq in E. destruct H as [H|H]; [contradiction|].
  apply IH in H. lia.
Qed.

Lemma StronglySorted_snoc A (R : A -> A -> Prop) l x :
  StronglySorted R l -> Forall (fun a => R a x) l -> StronglySorted R (l ++ [x]).
Proof.
  induction 1 as [|a l Hl IH Ha]; simpl; intros Hx.
  - constructor; constructor.
  - inversion Hx; subst. constructor; [auto|].
    apply Forall_app. split; [assumption|constructor; [assumption|constructor]].
Qed.

Lemma StronglySorted_weaken A (R R' : A -> A -> Prop) l :
  StronglySorted R l ->
  (forall a b, In a l -> In b l -> R a b -> R' a b) ->
  StronglySorted R' l.
Proof.
  induction 1 as [|a l Hl IH Ha]; intros HR; constructor.
  - apply IH. intros x y Hx Hy. apply HR; right; assumption.
  - rewrite Forall_forall in *. intros x Hx.
    apply HR; [left; reflexivity|right; assumption|auto].
Qed.

(** The counter of [ws] holds exactly the tokens of [ws], each once, with
    its number of occurrences, in the order of first occurrence. *)
Lemma Counter_spec ws :
  NoDup (map fst (Counter ws))
  /\ (forall k, In k (map fst (Counter ws)) <-> In k ws)
  /\ (forall k, get k (Counter ws) = occurrences k ws)
  /\ by_first_occurrence ws (map fst (Counter ws)).
Proof.
  induction ws as [|w ws (Hnd & Hin & Hget & Hord)] using rev_ind.
  - simpl. repeat split; try constructor; simpl; tauto.
  - rewrite Counter_snoc.
    assert (Hget' : forall k, get k (counter_add w (Counter ws))
                              = occurrences k (ws ++ [w])).
    { intros k. rewrite get_counter_add, occurrences_snoc, Hget. reflexivity. }
    destruct (in_dec str_eq_dec w (map fst (Counter ws))) as [Hw|Hw].
    + rewrite (counter_add_in _ _ Hw).
      split; [assumption|]. split; [|split; [assumption|]].
      * intros k. rewrite Hin, in_app_iff. simpl.
        split; [tauto|]. intros [H|[<-|[]]]; [assumption|]. apply Hin. assumption.
      * eapply StronglySorted_weaken; [exact Hord|].
        intros a b Ha Hb Hab.
        rewrite !first_index_snoc_in by (apply Hin; assumption). assumption.
    + rewrite (counter_add_new _ _ Hw) in *. rewrite map_app. simpl.
      assert (Hw' : ~ In w ws) by (rewrite <- Hin; assumption).
      split; [|split; [|split; [assumption|]]].
      * apply NoDup_app; [assumption|constructor; [tauto|constructor]|].
        intros a Ha [<-|[]]. contradiction.
      * intros k. rewrite !in_app_iff, Hin. reflexivity.
      * apply StronglySorted_snoc.
        -- eapply StronglySorted_weaken; [exact Hord|].
           intros a b Ha Hb Hab.
           rewrite !first_index_snoc_in by (apply Hin; assumption). assumption.
        -- rewrite Forall_forall. intros a Ha. apply Hin in Ha.
           rewrite first_index_snoc_in by assumption.
           rewrite first_index_snoc_new by assumption.
           apply first_index_lt. assumption.
Qed.

End CounterFacts.

(** * The scoring blocks *)

Section Blocks.

Context {U : UnicodeData}.

Local Open Scope Z_scope.

Lemma profile_presence_mono gm lm st :
  fst st <= fst (profile_presence gm lm st).
Proof. unfold profile_presence, flag. destruct gm, lm; simpl; lia. Qed.

Lemma profile_name_validation_mono gm lm name st st' :
  profile_name_validation gm lm name st = Ok st' -> fst st <= fst st'.
Proof.
  unfold profile_name_validation. intros H.
  assert (Hstep : forall site (m : option rematch) st0 st1,
    match m with
    | Some m =>
        if nonempty name then
          user <- group m ;;
          if negb (_name_matches name user)
          then Ok (flag 30 (mismatch_reason site user name) st0)
          else Ok st0
        else Ok st0
    | None => Ok st0
    end = Ok st1 -> fst st0 <= fst st1).
  { intros site [m|] st0 st1 E; [|injection E as <-; lia].
    destruct (nonempty name); [|injection E as <-; lia].
    destruct (group m) as [g|]; simpl in E; [|discriminate].
    destruct (negb (_name_matches name g)); injection E as <-; unfold flag; simpl; lia. }
  match type of H with
  | bind ?a _ = _ => destruct a as [st1|] eqn:E1; simpl in H; [|discriminate]
  end.
  apply Hstep in E1. apply Hstep in H. lia.
Qed.

Lemma education_vs_experience_mono cy gy ey st :
  fst st <= fst (education_vs_experience cy gy ey st).
Proof.
  unfold education_vs_experience, flag.
  destruct gy as [g|]; [|lia]. destruct ey as [e|];
    repeat match goal with
           | |- context [if ?b then _ else _] => destruct b
           end; simpl; lia.
Qed.

Lemma repeated_word_detection_mono text st :
  fst st <= fst (repeated_word_detection text st).
Proof.
  unfold repeated_word_detection, flag. destruct (repeated text); simpl; lia.
Qed.

Lemma profile_and_timeline_rules_nonneg cy text st ey :
  profile_and_timeline_rules cy text = Ok (st, ey) -> 0 <= fst st.
Proof.
  unfold profile_and_timeline_rules. intros H.
  destruct (_extract_name text) as [name|]; simpl in H; [|discriminate].
  destruct (profile_name_validation _ _ name _) as [st1|] eqn:E1;
    simpl in H; [|discriminate].
  destruct (_extract_graduation_year text) as [gy|]; simpl in H; [|discriminate].
  destruct (_extract_experience_years text) as [ey'|]; simpl in H; [|discriminate].
  injection H as <- <-.
  apply profile_name_validation_mono in E1.
  pose proof (profile_presence_mono (search GITHUB_PATTERN text)
                (search LINKEDIN_PATTERN text) (0, [])) as H0.
  pose proof (education_vs_experience_mono cy gy ey' st1).
  simpl in H0. lia.
Qed.

Lemma additive_rules_nonneg cy text st ey :
  additive_rules cy text = Ok (st, ey) -> 0 <= fst st.
Proof.
  unfold additive_rules. intros H.
  destruct (profile_and_timeline_rules cy text) as [[st0 ey0]|] eqn:E;
    simpl in H; [|discriminate].
  injection H as <- <-.
  apply profile_and_timeline_rules_nonneg in E.
  pose proof (repeated_word_detection_mono text st0). lia.
Qed.

Lemma unrealistic_experience_mono ey st :
  fst st <= fst (unrealistic_experience ey st).
Proof.
  unfold unrealistic_experience. destruct ey as [e|]; [|lia].
  destruct (nonzero (Some e) && (40 <? e)); simpl; lia.
Qed.

(** The two ways [check_fraud] returns. *)
Lemma check_fraud_short cy text fn :
  (List.length (strip text) < 50)%nat ->
  check_fraud cy text fn =
  Ok {| filename := fn; fraud_score := 100; fraud_status := Suspicious;
        reasons := [short_reason]; extracted_preview := firstn 300 text |}.
Proof.
  intros H. unfold check_fraud.
  apply Nat.ltb_lt in H. rewrite H. reflexivity.
Qed.

Lemma check_fraud_full cy text fn :
  (50 <= List.length (strip text))%nat ->
  check_fraud cy text fn =
  (a <- additive_rules cy text ;;
   Ok (report fn text (unrealistic_experience (snd a) (fst a)))).
Proof.
  intros H. unfold check_fraud.
  apply Nat.ltb_ge in H. rewrite H. reflexivity.
Qed.

Lemma check_fraud_cases cy text fn r :
  check_fraud cy text fn = Ok r ->
  (r = {| filename := fn; fraud_score := 100; fraud_status := Suspicious;
          reasons := [short_reason]; extracted_preview := firstn 300 text |})
  \/ (exists st ey,
        additive_rules cy text = Ok (st, ey)
        /\ r = report fn text (unrealistic_experience ey st)).
Proof.
  unfold check_fraud. destruct (List.length (strip text) <? 50)%nat.
  - intros H. injection H as <-. left. reflexivity.
  - destruct (additive_rules cy text) as [[st ey]|]; simpl; [|discriminate].
    intros H. injection H as <-. right. eauto.
Qed.

End Blocks.

(** * The claims of the specification *)

Section Claims.

Context {U : UnicodeData}.

Local Open Scope Z_scope.

(** C3. A text whose trimmed length is below 50 characters gets, whatever
    the filename and the year, exactly the report with score 100, status
    Suspicious, the single short-text reason and the first 300 characters
    of the text as preview; no other rule adds to it. *)
Theorem short_text_report (current_year : Z) (text filename : str) :
  (List.length (strip text) < 50)%nat ->
  check_fraud current_year text filename =
  Ok {| filename := filename;
        fraud_score := 100;
        fraud_status := Suspicious;
        reasons := [pystr "Resume content is empty or too short (< 50 characters)"];
        extracted_preview := firstn 300 text |}.
Proof. apply check_fraud_short. Qed.

(** C4. Whatever the text, the filename and the current year, the score
    of the report [check_fraud] returns lies between 0 and 100. *)
Theorem fraud_score_bounds (current_year : Z) (text filename : str) (r : FraudReport) :
  check_fraud current_year text filename = Ok r ->
  0 <= fraud_score r <= 100.
Proof.
  intros H. apply check_fraud_cases in H.
  destruct H as [-> | (st & ey & Ha & ->)]; simpl; [lia|].
  apply additive_rules_nonneg in Ha.
  pose proof (unrealistic_experience_mono ey st). lia.
Qed.

(** C5. The status of the report is Suspicious exactly when its score is
    at least 50, and Genuine otherwise, on the short-text path as on the
    full analysis. *)
Theorem status_threshold (current_year : Z) (text filename : str) (r : FraudReport) :
  check_fraud current_year text filename = Ok r ->
  (fraud_status r = Suspicious <-> 50 <= fraud_score r)
  /\ (fraud_status r = Genuine <-> fraud_score r < 50).
Proof.
  intros H. apply check_fraud_cases in H.
  destruct H as [-> | (st & ey & Ha & ->)]; simpl.
  - split; split; try lia; try discriminate; reflexivity.
  - destruct (50 <=? Z.min (fst (unrealistic_experience ey st)) 100) eqn:E.
    + apply Z.leb_le in E. split; split; try lia; try discriminate; reflexivity.
    + apply Z.leb_gt in E. split; split; try lia; try discriminate; reflexivity.
Qed.

End Claims.

(** * The repeated words *)

Section Repetition.

Context {U : UnicodeData}.

Lemma map_fst_filter_Forall (P : str -> Prop) (f : str * nat -> bool) d :
  Forall P (map fst d) -> Forall P (map fst (filter f d)).
Proof.
  induction d as [|x d IH]; simpl; intros H; [constructor|].
  inversion H; subst. destruct (f x); simpl; [constructor|]; auto.
Qed.

Lemma repeated_in text w :
  In w (repeated text) <-> (25 < occurrences w (words text))%nat.
Proof.
  unfold repeated.
  destruct (Counter_spec (words text)) as (Hnd & Hin & Hget & _).
  rewrite in_map_iff. split.
  - intros ([k c] & <- & H). apply filter_In in H. destruct H as [H Hc].
    simpl in *. apply Nat.ltb_lt in Hc.
    rewrite <- Hget, (get_in _ _ _ Hnd H). exact Hc.
  - intros H. rewrite <- Hget in H.
    assert (Hk : In w (map fst (Counter (words text)))).
    { destruct (in_dec str_eq_dec w (map fst (Counter (words text)))) as [?|Hn];
        [assumption|]. rewrite (get_missing _ _ Hn) in H. lia. }
    exists (w, get w (Counter (words text))). split; [reflexivity|].
    apply filter_In. split; [apply in_get; assumption|].
    simpl. apply Nat.ltb_lt. exact H.
Qed.

Lemma repeated_NoDup text : NoDup (repeated text).
Proof.
  unfold repeated.
  destruct (Counter_spec (words text)) as (Hnd & _).
  induction (Counter (words text)) as [|x d IH]; simpl; [constructor|].
  simpl in Hnd. inversion Hnd as [|? ? Hx Hd]; subst.
  destruct (25 <? snd x)%nat; simpl; [|auto].
  constructor; [|auto].
  intros Hin. apply Hx. apply in_map_iff in Hin.
  destruct Hin as (y & <- & Hy). apply filter_In in Hy.
  apply in_map. tauto.
Qed.

Lemma repeated_ordered text : by_first_occurrence (words text) (repeated text).
Proof.
  unfold repeated, by_first_occurrence.
  destruct (Counter_spec (words text)) as (_ & _ & _ & Hord).
  unfold by_first_occurrence in Hord.
  induction (Counter (words text)) as [|x d IH]; simpl; [constructor|].
  simpl in Hord. inversion Hord; subst.
  destruct (25 <? snd x)%nat; simpl; [|auto].
  constructor; [auto|]. apply map_fst_filter_Forall. assumption.
Qed.

Lemma repeated_nil text :
  repeated text = [] <-> forall w, (occurrences w (words text) <= 25)%nat.
Proof.
  split.
  - intros E w. destruct (le_lt_dec (occurrences w (words text)) 25) as [?|H];
      [assumption|].
    apply repeated_in in H. rewrite E in H. contradiction.
  - intros H. destruct (repeated text) as [|w l] eqn:E; [reflexivity|].
    assert (Hw : In w (repeated text)) by (rewrite E; left; reflexivity).
    apply repeated_in in Hw. specialize (H w). lia.
Qed.

Lemma repeated_word_detection_quiet text st :
  (forall w, (occurrences w (words text) <= 25)%nat) ->
  repeated_word_detection text st = st.
Proof.
  intros H. apply repeated_nil in H.
  unfold repeated_word_detection. rewrite H. reflexivity.
Qed.

Lemma repeated_word_detection_fires text st :
  (exists w, (25 < occurrences w (words text))%nat) ->
  repeated_word_detection text st =
  ((fst st + 15)%Z, snd st ++ [repetition_reason (repeated text)]).
Proof.
  intros (w & H). apply repeated_in in H.
  unfold repeated_word_detection.
  destruct (repeated text); [contradiction|reflexivity].
Qed.

Lemma StronglySorted_nth A (R : A -> A -> Prop) l :
  StronglySorted R l ->
  forall i j a b, nth_error l i = Some a -> nth_error l j = Some b ->
    (i < j)%nat -> R a b.
Proof.
  induction 1 as [|x l Hl IH Hx]; intros i j a b Hi Hj Hij.
  - destruct i; discriminate.
  - destruct j as [|j]; [lia|]. simpl in Hj.
    destruct i as [|i]; simpl in Hi.
    + injection Hi as <-. rewrite Forall_forall in Hx.
      apply Hx. eapply nth_error_In; eassumption.
    + eapply IH; eauto. lia.
Qed.

Lemma In_firstn A (x : A) n l : In x (firstn n l) -> In x l.
Proof.
  intros H. rewrite <- (firstn_skipn n l). apply in_or_app. left. exact H.
Qed.

Lemma StronglySorted_firstn A (R : A -> A -> Prop) n l :
  StronglySorted R l -> StronglySorted R (firstn n l).
Proof.
  intros H. revert n. induction H as [|x l Hl IH Hx]; intros [|n]; simpl;
    try constructor; auto.
  rewrite Forall_forall in *. intros y Hy. apply Hx.
  eapply In_firstn; eassumption.
Qed.

End Repetition.

(** * The tokens of the repetition block *)

Section Tokens.

Context {U : UnicodeData}.

Lemma letters_split s : s = letters_prefix s ++ after_letters s.
Proof.
  induction s as [|c s IH]; simpl; [reflexivity|].
  destruct (is_letter c); simpl; congruence.
Qed.

Lemma after_letters_head s c r : after_letters s = c :: r -> is_letter c = false.
Proof.
  induction s as [|x s IH]; simpl; [discriminate|].
  destruct (is_letter x) eqn:E; [assumption|]. congruence.
Qed.

Lemma after_letters_length s : (List.length (after_letters s) <= List.length s)%nat.
Proof.
  induction s as [|x s IH]; simpl; [lia|]. destruct (is_letter x); simpl; lia.
Qed.

Lemma in_cset_letter c :
  in_cset false (Chars [Range (chr "a") (chr "z"); Range (chr "A") (chr "Z")]) c
  = is_letter c.
Proof.
  unfold in_cset, in_item, is_letter. simpl existsb.
  rewrite !orb_false_r. reflexivity.
Qed.

(** A greedy repetition of letters before a continuation that cannot
    fail takes every letter there is. *)
Lemma rep_greedy_letters A (k : mstate -> option A) g :
  (forall st, k st <> None) ->
  forall s lo b,
    rep_greedy false (Chars [Range (chr "a") (chr "z"); Range (chr "A") (chr "Z")])
      lo None b s g k
    = if (lo <=? List.length (letters_prefix s))%nat
      then k {| m_before := last_before b s; m_rest := after_letters s;
                m_group := g |}
      else None.
Proof.
  intros Hk. induction s as [|c s IH]; intros lo b.
  - simpl. destruct lo; reflexivity.
  - cbn [rep_greedy option_map]. rewrite in_cset_letter. simpl.
    destruct (is_letter c) eqn:Ec.
    + rewrite IH. simpl List.length.
      destruct lo as [|lo]; simpl.
      * destruct (k _) eqn:Ek; [reflexivity|]. apply Hk in Ek. contradiction.
      * destruct (lo <=? List.length (letters_prefix s))%nat; [|reflexivity].
        destruct (k _) eqn:Ek; [reflexivity|]. apply Hk in Ek. contradiction.
    + destruct lo; reflexivity.
Qed.

Lemma match_at_word b s : match_at WORD_PATTERN b s = word_at s.
Proof.
  unfold match_at, word_at, WORD_PATTERN.
  cbn [p_regex p_ignorecase p_multiline rmatch m_before m_rest m_group].
  rewrite rep_greedy_letters by discriminate.
  destruct (3 <=? List.length (letters_prefix s))%nat; [|reflexivity].
  rewrite (@consumed_app {| m_before := b; m_rest := s; m_group := None |}
             {| m_before := last_before b s; m_rest := after_letters s;
                m_group := None |} (letters_prefix s) (letters_split s)).
  reflexivity.
Qed.

Lemma findall_word_before s :
  forall b b' skip,
    findall_from WORD_PATTERN b s skip = findall_from WORD_PATTERN b' s skip.
Proof.
  induction s as [|c s IH]; intros b b' skip.
  - destruct skip; cbn [findall_from]; [|reflexivity].
    rewrite !match_at_word. reflexivity.
  - destruct skip; cbn [findall_from]; [|reflexivity].
    rewrite !match_at_word. reflexivity.
Qed.

Lemma findall_word_skip pre rest :
  forall b, exists b',
    findall_from WORD_PATTERN b (pre ++ rest) (List.length pre)
    = findall_from WORD_PATTERN b' rest 0.
Proof.
  induction pre as [|c pre IH]; intros b; simpl.
  - exists b. reflexivity.
  - apply IH.
Qed.

Lemma findall_word_step s :
  forall b,
    findall_from WORD_PATTERN b s 0
    = long_run (letters_prefix s)
      ++ match after_letters s with
         | [] => []
         | c :: r => findall_from WORD_PATTERN (Some c) r 0
         end.
Proof.
  induction s as [|c s IH]; intros b.
  - cbn [findall_from]. rewrite match_at_word. reflexivity.
  - cbn [findall_from]. rewrite match_at_word. unfold word_at.
    cbn [letters_prefix after_letters].
    destruct (is_letter c) eqn:Ec; [|reflexivity].
    unfold long_run. simpl List.length.
    destruct (3 <=? S (List.length (letters_prefix s)))%nat eqn:E3.
    + unfold findall_item. simpl. f_equal.
      rewrite (letters_split s) at 1.
      destruct (findall_word_skip (letters_prefix s) (after_letters s) (Some c))
        as (b' & ->).
      destruct (after_letters s) as [|x r] eqn:Er.
      * cbn [findall_from]. rewrite match_at_word. reflexivity.
      * cbn [findall_from]. rewrite match_at_word. unfold word_at.
        simpl. rewrite (after_letters_head _ Er). reflexivity.
    + rewrite IH. unfold long_run.
      apply Nat.leb_gt in E3.
      destruct (3 <=? List.length (letters_prefix s))%nat eqn:E3';
        [apply Nat.leb_le in E3'; lia|reflexivity].
Qed.

Lemma letter_runs_from_step s :
  forall cur,
    letter_runs_from cur s
    = long_run (rev cur ++ letters_prefix s)
      ++ match after_letters s with
         | [] => []
         | _ :: r => letter_runs r
         end.
Proof.
  induction s as [|c s IH]; intros cur; simpl.
  - rewrite !app_nil_r. reflexivity.
  - destruct (is_letter c).
    + rewrite IH. simpl. rewrite <- app_assoc. reflexivity.
    + rewrite app_nil_r. reflexivity.
Qed.

(** [findall] with the pattern of the repetition block lists the maximal
    runs of three or more letters. *)
Lemma findall_word_runs s : findall WORD_PATTERN s = letter_runs s.
Proof.
  unfold findall. generalize (@None char).
  induction s as [s IH] using (induction_ltof1 _ (@List.length char)).
  unfold ltof in IH. intros b.
  rewrite findall_word_step. unfold letter_runs.
  rewrite letter_runs_from_step. simpl. f_equal.
  pose proof (after_letters_length s) as Hlen.
  destruct (after_letters s) as [|c r]; [reflexivity|].
  apply IH. simpl in Hlen. lia.
Qed.

End Tokens.

(** * When [check_fraud] returns *)

Section Returns.

Context {U : UnicodeData}.

Lemma rep_matches_chars ic cs lo hi st st' :
  rep_matches ic cs lo hi st st' ->
  exists pre,
    m_rest st = pre ++ m_rest st'
    /\ Forall (fun c => in_cset ic cs c = true) pre
    /\ (lo <= List.length pre)%nat.
Proof.
  induction 1 as [hi st|lo hi c b s g st' Hhi Hc Hrep IH]; simpl in *.
  - exists []. repeat split; [constructor|lia].
  - destruct IH as (pre & -> & Hall & Hlo).
    exists (c :: pre). repeat split; [constructor; assumption|simpl; lia].
Qed.

(** Group 1 of the experience pattern is a non-empty run of decimal
    digits. *)
Lemma experience_group b s m :
  match_at EXPERIENCE_PATTERN b s = Some m ->
  exists g,
    group1 m = Some g /\ g <> [] /\ Forall (fun c => isdecimal c = true) g.
Proof.
  intros H. apply match_at_sound in H. destruct H as (st' & Hm & Hg & _).
  simpl in Hm.
  apply matches_Seq_inv in Hm. destruct Hm as (st1 & H1 & Hm).
  apply matches_keeps_group in Hm; [|reflexivity].
  apply matches_Group_inv in H1. destruct H1 as (st2 & H2 & ->). simpl in Hm.
  apply matches_Rep_inv, rep_matches_chars in H2.
  destruct H2 as (pre & E & Hall & Hlo).
  rewrite (consumed_app _ _ _ E) in Hm.
  exists pre. split; [congruence|]. split; [|exact Hall].
  destruct pre; [simpl in Hlo; lia|discriminate].
Qed.

Lemma digits_value_decimal s :
  Forall (fun c => isdecimal c = true) s ->
  forall acc, exists z, digits_value acc s = Some z.
Proof.
  induction 1 as [|c s Hc Hs IH]; intros acc; simpl; [eauto|].
  unfold isdecimal in Hc. destruct (digit_value c); [apply IH|discriminate].
Qed.

Lemma py_int_digits g :
  g <> [] -> Forall (fun c => isdecimal c = true) g ->
  (exists z, py_int g = Ok z /\ (List.length g <= int_max_str_digits)%nat)
  \/ (py_int g = Raise ValueError /\ (int_max_str_digits < List.length g)%nat).
Proof.
  intros Hne Hall. unfold py_int.
  destruct (int_max_str_digits <? List.length g)%nat eqn:E.
  - right. apply Nat.ltb_lt in E. auto.
  - left. apply Nat.ltb_ge in E.
    destruct (digits_value_decimal Hall 0) as (z & ->).
    destruct g; [congruence|]. eauto.
Qed.

Lemma extract_experience_years_cases text :
  match experience_digits text with
  | Some g =>
      (exists z, _extract_experience_years text = Ok (Some z)
                 /\ (List.length g <= int_max_str_digits)%nat)
      \/ (_extract_experience_years text = Raise ValueError
          /\ (int_max_str_digits < List.length g)%nat)
  | None => _extract_experience_years text = Ok None
  end.
Proof.
  unfold experience_digits, _extract_experience_years.
  destruct (search EXPERIENCE_PATTERN text) as [m|] eqn:E; [|reflexivity].
  apply search_from_Some in E. destruct E as (b & s & E).
  apply experience_group in E. destruct E as (g & Hg & Hne & Hall).
  rewrite Hg. unfold group. rewrite Hg. simpl.
  destruct (py_int_digits Hne Hall) as [(z & -> & Hle)|[-> Hgt]]; simpl; eauto.
Qed.

(** [check_fraud] returns a report unless the first experience phrase of
    a text of trimmed length 50 or more has more digits than [int]
    converts; then it raises ValueError. *)
Lemma check_fraud_returns cy text fn :
  (forall g, experience_digits text = Some g ->
             (List.length g <= int_max_str_digits)%nat) ->
  exists r, check_fraud cy text fn = Ok r.
Proof.
  intros H. unfold check_fraud.
  destruct (List.length (strip text) <? 50)%nat; [eauto|].
  unfold additive_rules, profile_and_timeline_rules.
  destruct (extract_name_ok text) as (name & ->). simpl.
  destruct (profile_name_validation_ok text name
              (profile_presence (search GITHUB_PATTERN text)
                 (search LINKEDIN_PATTERN text) (0%Z, []))) as (st1 & -> & _).
  rewrite extract_graduation_year_none. simpl.
  pose proof (extract_experience_years_cases text) as He.
  destruct (experience_digits text) as [g|].
  - destruct He as [(z & -> & _)|[_ Hgt]]; [simpl; eauto|].
    specialize (H g eq_refl). lia.
  - rewrite He. simpl. eauto.
Qed.

Lemma check_fraud_raises cy text fn g :
  (50 <= List.length (strip text))%nat ->
  experience_digits text = Some g ->
  (int_max_str_digits < List.length g)%nat ->
  check_fraud cy text fn = Raise ValueError.
Proof.
  intros Hlen Hg Hgt. rewrite check_fraud_full by assumption.
  unfold additive_rules, profile_and_timeline_rules.
  destruct (extract_name_ok text) as (name & ->). simpl.
  destruct (profile_name_validation_ok text name
              (profile_presence (search GITHUB_PATTERN text)
                 (search LINKEDIN_PATTERN text) (0%Z, []))) as (st1 & -> & _).
  rewrite extract_graduation_year_none. simpl.
  pose proof (extract_experience_years_cases text) as He.
  rewrite Hg in He. destruct He as [(z & _ & Hle)|[-> _]]; [lia|reflexivity].
Qed.

End Returns.

(** * The claims on the rules *)

Section ClaimsOnRules.

Context {U : UnicodeData}.

Local Open Scope Z_scope.


(* The floor of block E, for any text *)
Lemma unrealistic_floor (current_year : Z) (text filename : str) (e : Z) :
  (50 <= List.length (strip text))%nat ->
  _extract_experience_years text = Ok (Some e) ->
  40 < e ->
  exists st,
    additive_rules current_year text = Ok (st, Some e)
    /\ check_fraud current_year text filename =
       Ok {| filename := filename;
             fraud_score := Z.min (Z.max (fst st) 50) 100;
             fraud_status := Suspicious;
             reasons := snd st ++ [unrealistic_reason e];
             extracted_preview := firstn 300 text |}
    /\ 50 <= Z.min (Z.max (fst st) 50) 100 <= 100.
Proof.
  intros Hlen Hey He.
  rewrite check_fraud_full by assumption.
  unfold additive_rules, profile_and_timeline_rules.
  destruct (extract_name_ok text) as (name & ->). simpl.
  destruct (profile_name_validation_ok text name
              (profile_presence (search GITHUB_PATTERN text)
                 (search LINKEDIN_PATTERN text) (0, []))) as (st1 & -> & _).
  rewrite extract_graduation_year_none, Hey. simpl.
  eexists. split; [reflexivity|]. split; [|lia].
  unfold report, unrealistic_experience. simpl.
  assert (E1 : negb (e =? 0) && (40 <? e) = true).
  { apply andb_true_iff. split; [apply negb_true_iff, Z.eqb_neq|apply Z.ltb_lt]; lia. }
  rewrite E1. simpl.
  match goal with
  | |- context [50 <=? ?x] => assert (E2 : (50 <=? x) = true) by (apply Z.leb_le; lia)
  end.
  rewrite E2. reflexivity.
Qed.

(* The runs of ASCII letters are the alphabetic runs when "alphabetic"
   is read as a-z, A-Z *)
Lemma letter_runs_alphabetic (s : str) :
  letter_runs s = alphabetic_runs is_letter s.
Proof.
  unfold letter_runs, alphabetic_runs. generalize (@nil char) as cur.
  induction s as [|c s IH]; intros cur; simpl; [reflexivity|].
  destruct (is_letter c); rewrite IH; reflexivity.
Qed.

(* ', '.join of at most five strings, written out *)
Lemma join_upto_five (sep : str) (l : list str) :
  (List.length l <= 5)%nat ->
  join sep l =
  match l with
  | [w1] => w1
  | [w1; w2] => w1 ++ sep ++ w2
  | [w1; w2; w3] => w1 ++ sep ++ w2 ++ sep ++ w3
  | [w1; w2; w3; w4] => w1 ++ sep ++ w2 ++ sep ++ w3 ++ sep ++ w4
  | [w1; w2; w3; w4; w5] =>
      w1 ++ sep ++ w2 ++ sep ++ w3 ++ sep ++ w4 ++ sep ++ w5
  | _ => []
  end.
Proof.
  intros H. do 6 (destruct l as [|? l]; [reflexivity|]).
  simpl in H. lia.
Qed.

(** C7, amended: the tokens are runs of the ASCII letters a-z, A-Z, not
    of alphabetic characters at large.  On a text of trimmed length at
    least 50, the tokens are the maximal runs of three or more ASCII
    letters of the lower-cased text (any other character, a letter with
    an accent included, ends a run); a token is a repeated word exactly
    when it occurs more than 25 times, so one that occurs exactly 25
    times is not and one that occurs 26 times is.  When no token occurs
    more than 25 times the repetition block leaves score and reasons as
    they are; when some token does, the score before the override and
    the cap is 15 more, once, whatever the number of such tokens, and
    one reason is appended: the text "Words repeated excessively (>25
    times): " followed by the first (at most five, at least one)
    repeated tokens, in their order, with ", " between them. *)
Theorem repetition_boundary (current_year : Z) (text filename : str) :
  (50 <= List.length (strip text))%nat ->
  words text = letter_runs (lower text)
  /\ (forall w, In w (repeated text) <-> (25 < occurrences w (words text))%nat)
  /\ (forall w, occurrences w (words text) = 25%nat -> ~ In w (repeated text))
  /\ (forall w, occurrences w (words text) = 26%nat -> In w (repeated text))
  /\ (forall st exp_years,
        profile_and_timeline_rules current_year text = Ok (st, exp_years) ->
        ((forall w, (occurrences w (words text) <= 25)%nat) ->
         let final := unrealistic_experience exp_years st in
         check_fraud current_year text filename =
         Ok {| filename := filename;
               fraud_score := Z.min (fst final) 100;
               fraud_status :=
                 if 50 <=? Z.min (fst final) 100 then Suspicious else Genuine;
               reasons := snd final;
               extracted_preview := firstn 300 text |})
        /\
        ((exists w, (25 < occurrences w (words text))%nat) ->
         let named := firstn 5 (repeated text) in
         let listed :=
           match named with
           | [w1] => w1
           | [w1; w2] => w1 ++ pystr ", " ++ w2
           | [w1; w2; w3] => w1 ++ pystr ", " ++ w2 ++ pystr ", " ++ w3
           | [w1; w2; w3; w4] =>
               w1 ++ pystr ", " ++ w2 ++ pystr ", " ++ w3 ++ pystr ", " ++ w4
           | [w1; w2; w3; w4; w5] =>
               w1 ++ pystr ", " ++ w2 ++ pystr ", " ++ w3 ++ pystr ", " ++ w4
                  ++ pystr ", " ++ w5
           | _ => []
           end in
         let final :=
           unrealistic_experience exp_years
             (fst st + 15,
              snd st ++ [pystr "Words repeated excessively (>25 times): "
                           ++ listed]) in
         (1 <= List.length named <= 5)%nat
         /\ (forall w, In w named -> (25 < occurrences w (words text))%nat)
         /\ check_fraud current_year text filename =
            Ok {| filename := filename;
                  fraud_score := Z.min (fst final) 100;
                  fraud_status :=
                    if 50 <=? Z.min (fst final) 100 then Suspicious else Genuine;
                  reasons := snd final;
                  extracted_preview := firstn 300 text |})).
Proof.
  intros Hlen. split; [apply findall_word_runs|].
  split; [intros w; apply repeated_in|]. split; [|split].
  - intros w Hw Hin. apply repeated_in in Hin. lia.
  - intros w Hw. apply repeated_in. lia.
  - intros st ey Hst.
    assert (Hfull : check_fraud current_year text filename =
                    Ok (report filename text
                          (unrealistic_experience ey
                             (repeated_word_detection text st)))).
    { rewrite check_fraud_full by assumption.
      unfold additive_rules. rewrite Hst. reflexivity. }
    rewrite Hfull. split.
    + intros H final.
      rewrite repeated_word_detection_quiet by assumption. reflexivity.
    + intros H named listed final.
      assert (Hnamed : (1 <= List.length named <= 5)%nat).
      { destruct H as (w & H). apply repeated_in in H.
        unfold named. rewrite length_firstn.
        destruct (repeated text); [contradiction|]. simpl List.length. lia. }
      split; [exact Hnamed|]. split.
      * intros w Hw. apply repeated_in. eapply In_firstn. exact Hw.
      * rewrite repeated_word_detection_fires by assumption.
        subst final listed named. unfold repetition_reason.
        rewrite (@join_upto_five (pystr ", ") (firstn 5 (repeated text))) by lia.
        reflexivity.
Qed.

(** C10. When the repetition rule fires, its reason names the first (at
    most five) repeated tokens in the order in which they first occur in
    the lower-cased text: no token is named twice, every named token
    occurs more than 25 times, and a token named earlier first occurs
    earlier.  The reason string is a function of the text. *)
Theorem repetition_reason_order (current_year : Z) (text filename : str)
    (r : FraudReport) :
  (50 <= List.length (strip text))%nat ->
  check_fraud current_year text filename = Ok r ->
  repeated text <> [] ->
  let named := firstn 5 (repeated text) in
  In (pystr "Words repeated excessively (>25 times): "
        ++ join (pystr ", ") named) (reasons r)
  /\ NoDup named
  /\ (forall w, In w named -> (25 < occurrences w (words text))%nat)
  /\ (forall i j w1 w2,
        nth_error named i = Some w1 -> nth_error named j = Some w2 ->
        (i < j)%nat ->
        (first_index w1 (words text) < first_index w2 (words text))%nat).
Proof.
  intros Hlen Hr Hrep named. split; [|split; [|split]].
  - rewrite check_fraud_full in Hr by assumption.
    unfold additive_rules in Hr.
    destruct (profile_and_timeline_rules current_year text) as [[st ey]|];
      simpl in Hr; [|discriminate].
    injection Hr as <-. simpl.
    assert (Hin : In (repetition_reason (repeated text))
                     (snd (repeated_word_detection text st))).
    { unfold repeated_word_detection.
      destruct (repeated text) eqn:E; [congruence|].
      simpl. apply in_or_app. right. left. reflexivity. }
    unfold unrealistic_experience.
    destruct ey as [e|]; [|exact Hin].
    destruct (nonzero (Some e) && (40 <? e)); [|exact Hin].
    simpl. apply in_or_app. left. exact Hin.
  - pose proof (repeated_NoDup text) as H.
    rewrite <- (firstn_skipn 5 (repeated text)) in H.
    apply NoDup_app_remove_r in H. exact H.
  - intros w Hw. apply repeated_in.
    eapply In_firstn. exact Hw.
  - intros i j w1 w2 Hi Hj Hij.
    eapply (StronglySorted_nth
              (StronglySorted_firstn 5 (repeated_ordered text))); eassumption.
Qed.

End ClaimsOnRules.

Section ClaimsOnResumes.

Local Existing Instance ascii_data.
Local Open Scope Z_scope.

(** C1. The graduation year the timeline rules use should be the minimum
    four-digit token in [[1970, 2099]].  On the resume of John Smith,
    whose trimmed length is above 50 and whose only such token is 2020,
    that year is 2020; [_extract_graduation_year] finds none, because
    [findall] lists the group of the year pattern, 20, which the range
    filter then drops.  It finds none in any text. *)
Theorem graduation_year_lost :
  (50 <= List.length (strip john_smith_resume))%nat
  /\ findall YEAR_TOKEN john_smith_resume = [pystr "2020"]
  /\ graduation_year_spec john_smith_resume = Ok (Some 2020)
  /\ findall YEAR_PATTERN john_smith_resume = [pystr "20"]
  /\ _extract_graduation_year john_smith_resume = Ok None
  /\ (forall (U : UnicodeData) (text : str),
        @_extract_graduation_year U text = Ok None).
Proof.
  repeat split; try (vm_compute; reflexivity).
  - vm_compute; lia.
  - intros U text. apply extract_graduation_year_none.
Qed.

(** C2. On the resume of John Smith with the current year 2024 the
    timeline mismatch (5 > 2024 - 2020) should add 30, as the timeline
    block does when it is given the year 2020.  It is given no year and
    no rule fires: the score is 0, the status Genuine and the list of
    reasons empty. *)
Theorem john_smith_scores_zero :
  _extract_name john_smith_resume = Ok (pystr "John Smith")
  /\ _extract_experience_years john_smith_resume = Ok (Some 5)
  /\ education_vs_experience 2024 (Some 2020) (Some 5) (0, []) =
     (30, [pystr "Claimed 5 years experience but graduated in 2020 (max possible: 4 years)"])
  /\ _extract_graduation_year john_smith_resume = Ok None
  /\ check_fraud 2024 john_smith_resume resume_pdf =
     Ok {| filename := resume_pdf;
           fraud_score := 0;
           fraud_status := Genuine;
           reasons := [];
           extracted_preview := firstn 300 john_smith_resume |}.
Proof. vm_compute. repeat split. Qed.

(** C9. [check_fraud] should return a report for every text.  On a text
    of 4301 digits followed by the experience phrase, whatever the year
    and the filename, the experience pattern captures the 4301 digits,
    their conversion raises ValueError and no report is returned. *)
Theorem long_digits_raise (current_year : Z) (filename : str) :
  experience_digits long_digits_resume = Some (repeat (chr "1") 4301)
  /\ py_int (repeat (chr "1") 4301) = Raise ValueError
  /\ check_fraud current_year long_digits_resume filename = Raise ValueError.
Proof. vm_compute. repeat split. Qed.

End ClaimsOnResumes.

(** C8. On a text of trimmed length at least 50 whose experience figure
    exceeds 40, the score is the additive total raised to at least 50 and
    then capped at 100, so it is at least 50 and the status is
    Suspicious; the override appends its reason and adds nothing.  A
    resume with matching profile links that states 42 years of
    experience scores exactly 50. *)
Theorem unrealistic_experience_floor :
  (forall (U : UnicodeData) (current_year : Z) (text filename : str) (e : Z),
     (50 <= List.length (strip text))%nat ->
     _extract_experience_years text = Ok (Some e) ->
     (40 < e)%Z ->
     exists st,
       additive_rules current_year text = Ok (st, Some e)
       /\ check_fraud current_year text filename =
          Ok {| filename := filename;
                fraud_score := Z.min (Z.max (fst st) 50) 100;
                fraud_status := Suspicious;
                reasons := snd st ++ [pystr "Unrealistic experience claimed: "
                                        ++ str_of_int e ++ pystr " years (>40)"];
                extracted_preview := firstn 300 text |}
       /\ (50 <= Z.min (Z.max (fst st) 50) 100 <= 100)%Z)
  /\ @additive_rules ascii_data 2024 veteran_resume = Ok ((0%Z, []), Some 42%Z)
  /\ @check_fraud ascii_data 2024 veteran_resume resume_pdf =
     Ok {| filename := resume_pdf;
           fraud_score := 50;
           fraud_status := Suspicious;
           reasons := [pystr "Unrealistic experience claimed: 42 years (>40)"];
           extracted_preview := firstn 300 veteran_resume |}.
Proof.
  split; [|split; vm_compute; reflexivity].
  intros U cy text fn e. apply unrealistic_floor.
Qed.

(** * The theorems at concrete resumes *)

Section Witnesses.

Local Existing Instance ascii_data.
Local Open Scope Z_scope.

Lemma short_text_report_witness :
  (List.length (strip (pystr "  John Smith  ")) < 50)%nat
  /\ check_fraud 2024 (pystr "  John Smith  ") resume_pdf =
     Ok {| filename := resume_pdf;
           fraud_score := 100;
           fraud_status := Suspicious;
           reasons := [pystr "Resume content is empty or too short (< 50 characters)"];
           extracted_preview := pystr "  John Smith  " |}.
Proof.
  split; [vm_compute; lia|].
  apply (short_text_report 2024 (pystr "  John Smith  ") resume_pdf).
  vm_compute; lia.
Defined.

Lemma fraud_score_bounds_witness :
  check_fraud 2024 john_smith_resume resume_pdf = Ok john_smith_report
  /\ 0 <= fraud_score john_smith_report <= 100.
Proof.
  split; [vm_compute; reflexivity|].
  apply (fraud_score_bounds 2024 john_smith_resume resume_pdf).
  vm_compute; reflexivity.
Defined.

Lemma status_threshold_witness :
  check_fraud 2024 veteran_resume resume_pdf = Ok veteran_report
  /\ (fraud_status veteran_report = Suspicious <-> 50 <= fraud_score veteran_report)
  /\ (fraud_status veteran_report = Genuine <-> fraud_score veteran_report < 50).
Proof.
  split; [vm_compute; reflexivity|].
  apply (status_threshold 2024 veteran_resume resume_pdf).
  vm_compute; reflexivity.
Defined.


(* 25 times "lorem": no repeated word, score 50 for the two missing
   links.  26 times: one repeated word, 15 more and the reason that
   names it.  Six words 26 times each: still 15 more, once, and the
   reason names the first five. *)
Lemma repetition_boundary_witness :
  (50 <= List.length (strip lorem_25))%nat
  /\ (50 <= List.length (strip lorem_26))%nat
  /\ (50 <= List.length (strip keywords_26))%nat
  /\ occurrences (pystr "lorem") (words lorem_25) = 25%nat
  /\ occurrences (pystr "lorem") (words lorem_26) = 26%nat
  /\ ~ In (pystr "lorem") (repeated lorem_25)
  /\ In (pystr "lorem") (repeated lorem_26)
  /\ check_fraud 2024 lorem_25 resume_pdf =
     Ok {| filename := resume_pdf;
           fraud_score := 50;
           fraud_status := Suspicious;
           reasons := [pystr "Missing GitHub profile URL";
                       pystr "Missing LinkedIn profile URL"];
           extracted_preview := lorem_25 |}
  /\ check_fraud 2024 lorem_26 resume_pdf =
     Ok {| filename := resume_pdf;
           fraud_score := 65;
           fraud_status := Suspicious;
           reasons := [pystr "Missing GitHub profile URL";
                       pystr "Missing LinkedIn profile URL";
                       pystr "Words repeated excessively (>25 times): lorem"];
           extracted_preview := lorem_26 |}
  /\ List.length (repeated keywords_26) = 6%nat
  /\ check_fraud 2024 keywords_26 resume_pdf =
     Ok {| filename := resume_pdf;
           fraud_score := 65;
           fraud_status := Suspicious;
           reasons := [pystr "Missing GitHub profile URL";
                       pystr "Missing LinkedIn profile URL";
                       pystr "Words repeated excessively (>25 times): java, python, react, docker, linux"];
           extracted_preview := firstn 300 keywords_26 |}.
Proof.
  assert (H25 : (50 <= List.length (strip lorem_25))%nat) by (vm_compute; lia).
  assert (H26 : (50 <= List.length (strip lorem_26))%nat) by (vm_compute; lia).
  assert (Hkw : (50 <= List.length (strip keywords_26))%nat) by (vm_compute; lia).
  split; [exact H25|]. split; [exact H26|]. split; [exact Hkw|].
  split; [vm_compute; reflexivity|].
  split; [vm_compute; reflexivity|].
  destruct (repetition_boundary 2024 lorem_25 resume_pdf H25)
    as (_ & _ & Hnot25 & _ & Hrule25).
  destruct (repetition_boundary 2024 lorem_26 resume_pdf H26)
    as (_ & _ & _ & Hin26 & Hrule26).
  destruct (repetition_boundary 2024 keywords_26 resume_pdf Hkw)
    as (_ & _ & _ & _ & Hrulekw).
  split; [apply Hnot25; vm_compute; reflexivity|].
  split; [apply Hin26; vm_compute; reflexivity|].
  split.
  { destruct (Hrule25 (50, [missing_github; missing_linkedin]) None)
      as (Hquiet & _); [vm_compute; reflexivity|].
    assert (Hall : forall w, (occurrences w (words lorem_25) <= 25)%nat)
      by (apply repeated_nil; vm_compute; reflexivity).
    pose proof (Hquiet Hall) as E. cbv zeta in E. rewrite E.
    vm_compute. reflexivity. }
  split.
  { destruct (Hrule26 (50, [missing_github; missing_linkedin]) None)
      as (_ & Hfires); [vm_compute; reflexivity|].
    assert (Hex : exists w, (25 < occurrences w (words lorem_26))%nat)
      by (exists (pystr "lorem"); vm_compute; lia).
    pose proof (Hfires Hex) as E. cbv zeta in E.
    destruct E as (_ & _ & E). rewrite E.
    vm_compute. reflexivity. }
  split; [vm_compute; reflexivity|].
  destruct (Hrulekw (50, [missing_github; missing_linkedin]) None)
    as (_ & Hfires); [vm_compute; reflexivity|].
  assert (Hex : exists w, (25 < occurrences w (words keywords_26))%nat)
    by (exists (pystr "java"); vm_compute; lia).
  pose proof (Hfires Hex) as E. cbv zeta in E.
  destruct E as (_ & _ & E). rewrite E.
  vm_compute. reflexivity.
Defined.

Lemma unrealistic_experience_floor_witness :
  (50 <= List.length (strip veteran_resume))%nat
  /\ _extract_experience_years veteran_resume = Ok (Some 42)
  /\ exists st,
       additive_rules 2024 veteran_resume = Ok (st, Some 42)
       /\ check_fraud 2024 veteran_resume resume_pdf =
          Ok {| filename := resume_pdf;
                fraud_score := Z.min (Z.max (fst st) 50) 100;
                fraud_status := Suspicious;
                reasons := snd st ++ [pystr "Unrealistic experience claimed: "
                                        ++ str_of_int 42 ++ pystr " years (>40)"];
                extracted_preview := firstn 300 veteran_resume |}
       /\ 50 <= Z.min (Z.max (fst st) 50) 100 <= 100.
Proof.
  split; [vm_compute; lia|].
  split; [vm_compute; reflexivity|].
  apply (proj1 unrealistic_experience_floor ascii_data 2024 veteran_resume
           resume_pdf 42).
  - vm_compute; lia.
  - vm_compute; reflexivity.
  - lia.
Defined.

Lemma repetition_reason_order_witness :
  check_fraud 2024 alpha_beta_26 resume_pdf = Ok alpha_beta_report
  /\ firstn 5 (repeated alpha_beta_26) = [pystr "alpha"; pystr "beta"]
  /\ (first_index (pystr "alpha") (words alpha_beta_26)
      < first_index (pystr "beta") (words alpha_beta_26))%nat.
Proof.
  split; [vm_compute; reflexivity|].
  split; [vm_compute; reflexivity|].
  apply (repetition_reason_order 2024 alpha_beta_26 resume_pdf
           (r := alpha_beta_report)) with (i := 0%nat) (j := 1%nat).
  - vm_compute; lia.
  - vm_compute; reflexivity.
  - vm_compute; discriminate.
  - vm_compute; reflexivity.
  - vm_compute; reflexivity.
  - lia.
Defined.

End Witnesses.

(** * The repetition rule on accented letters *)

Section AccentedText.

Local Existing Instance latin1_data.
Local Open Scope Z_scope.

(** C7 as it is stated, with the tokens read as the maximal runs of 3
    or more alphabetic characters, fails on the text made of the word
    e-acute t e-acute and a blank, 26 times.  The trimmed text has 103
    characters and is its own lower-casing; the three characters of the
    word are alphabetic ([str.isalpha]), so that the word is a token in
    that reading and occurs 26 times.  But [[a-zA-Z]{3,}] finds nothing
    in the text, where the only ASCII letters are the single t's: no
    word is repeated, and [check_fraud] returns the score 50 with the
    two reasons for the missing links and no reason on repetition. *)
Lemma accented_token_not_counted :
  (50 <= List.length (strip ete_26))%nat
  /\ lower ete_26 = ete_26
  /\ Forall (fun c => latin1_isalpha c = true) ete
  /\ alphabetic_runs latin1_isalpha (lower ete_26) = repeat ete 26
  /\ occurrences ete (alphabetic_runs latin1_isalpha (lower ete_26)) = 26%nat
  /\ ~ (forall w,
          occurrences w (alphabetic_runs latin1_isalpha (lower ete_26)) = 26%nat ->
          In w (repeated ete_26))
  /\ words ete_26 = []
  /\ repeated ete_26 = []
  /\ profile_and_timeline_rules 2024 ete_26 =
     Ok ((50, [pystr "Missing GitHub profile URL";
               pystr "Missing LinkedIn profile URL"]), None)
  /\ check_fraud 2024 ete_26 resume_pdf =
     Ok {| filename := resume_pdf;
           fraud_score := 50;
           fraud_status := Suspicious;
           reasons := [pystr "Missing GitHub profile URL";
                       pystr "Missing LinkedIn profile URL"];
           extracted_preview := ete_26 |}.
Proof.
  split; [vm_compute; lia|].
  split; [vm_compute; reflexivity|].
  split; [repeat constructor|].
  split; [vm_compute; reflexivity|].
  split; [vm_compute; reflexivity|].
  split.
  { intros H.
    assert (Hin : In ete (repeated ete_26)) by (apply H; vm_compute; reflexivity).
    vm_compute in Hin. exact Hin. }
  repeat split; vm_compute; reflexivity.
Qed.

End AccentedText.


(** * Further properties of the scoring engine *)

Section Scoring.

Context {U : UnicodeData}.

Local Open Scope Z_scope.

Lemma lstrip_length s : (List.length (lstrip s) <= List.length s)%nat.
Proof.
  induction s as [|c s IH]; simpl; [lia|].
  destruct (isspace c); simpl; lia.
Qed.

Lemma strip_length s : (List.length (strip s) <= List.length s)%nat.
Proof.
  unfold strip. rewrite length_rev.
  pose proof (lstrip_length (rev (lstrip s))) as H1.
  rewrite length_rev in H1. pose proof (lstrip_length s). lia.
Qed.

Lemma lstrip_blank s : Forall (fun c => isspace c = true) s -> lstrip s = [].
Proof.
  induction 1 as [|c s Hc Hs IH]; simpl; [reflexivity|].
  rewrite Hc. exact IH.
Qed.

Lemma strip_blank s : Forall (fun c => isspace c = true) s -> strip s = [].
Proof. intros H. unfold strip. rewrite (lstrip_blank H). reflexivity. Qed.

(* what the blocks A to C leave, now that no text has a graduation year *)
Lemma profile_and_timeline_rules_inv cy text st ey :
  profile_and_timeline_rules cy text = Ok (st, ey) ->
  exists name,
    _extract_name text = Ok name
    /\ profile_name_validation (search GITHUB_PATTERN text)
         (search LINKEDIN_PATTERN text) name
         (profile_presence (search GITHUB_PATTERN text)
            (search LINKEDIN_PATTERN text) (0, [])) = Ok st
    /\ _extract_experience_years text = Ok ey.
Proof.
  unfold profile_and_timeline_rules. intros H.
  destruct (_extract_name text) as [name|]; simpl in H; [|discriminate].
  destruct (profile_name_validation _ _ name _) as [st1|] eqn:E1;
    simpl in H; [|discriminate].
  rewrite extract_graduation_year_none in H. simpl in H.
  destruct (_extract_experience_years text) as [ey'|]; simpl in H; [|discriminate].
  injection H as <- <-. exists name. auto.
Qed.

(* the score and the number of reasons the blocks A and B can leave *)
Lemma profile_blocks_values gm lm name st :
  profile_name_validation gm lm name (profile_presence gm lm (0, [])) = Ok st ->
  In (fst st, List.length (snd st))
     [(0, 0%nat); (25, 1%nat); (30, 1%nat); (50, 2%nat); (55, 2%nat); (60, 2%nat)].
Proof.
  unfold profile_name_validation, profile_presence, flag.
  destruct gm as [g|], lm as [l|]; simpl; destruct (nonempty name); simpl;
    try destruct (group g) as [ug|]; simpl;
    try destruct (negb (_name_matches name ug)); simpl;
    try destruct (group l) as [ul|]; simpl;
    try destruct (negb (_name_matches name ul)); simpl;
    intros H; try discriminate; injection H as <-; simpl; tauto.
Qed.

Lemma repeated_word_detection_values text st :
  repeated_word_detection text st = st
  \/ (fst (repeated_word_detection text st) = fst st + 15
      /\ List.length (snd (repeated_word_detection text st))
         = S (List.length (snd st))).
Proof.
  unfold repeated_word_detection, flag.
  destruct (repeated text); [left; reflexivity|right].
  simpl. rewrite length_app. simpl. split; [reflexivity|lia].
Qed.

Lemma unrealistic_experience_values ey st :
  (unrealistic_experience ey st = st
   /\ forall e, ey = Some e -> e <= 40)
  \/ (exists e, ey = Some e /\ 40 < e
      /\ unrealistic_experience ey st
         = (Z.max (fst st) 50, snd st ++ [unrealistic_reason e])).
Proof.
  unfold unrealistic_experience. destruct ey as [e|].
  - destruct (nonzero (Some e) && (40 <? e)) eqn:E.
    + right. exists e. apply andb_true_iff in E. destruct E as [_ E].
      apply Z.ltb_lt in E. auto.
    + left. split; [reflexivity|]. intros e' H. injection H as <-.
      apply andb_false_iff in E. destruct E as [E|E].
      * simpl in E. apply negb_false_iff, Z.eqb_eq in E. lia.
      * apply Z.ltb_ge in E. lia.
  - left. split; [reflexivity|]. discriminate.
Qed.

End Scoring.

Section ScoringProperties.

Context {U : UnicodeData}.

Local Open Scope Z_scope.

(** X1. A text of fewer than 50 characters, or of white space only
    however long, gets the short-text report: nothing else is looked
    at. *)
Theorem blank_text_report (current_year : Z) (text filename : str) :
  (List.length text < 50)%nat \/ Forall (fun c => isspace c = true) text ->
  check_fraud current_year text filename =
  Ok {| filename := filename;
        fraud_score := 100;
        fraud_status := Suspicious;
        reasons := [pystr "Resume content is empty or too short (< 50 characters)"];
        extracted_preview := firstn 300 text |}.
Proof.
  intros H. apply check_fraud_short. destruct H as [H|H].
  - pose proof (strip_length text). lia.
  - rewrite (strip_blank H). simpl. lia.
Qed.

(** X2. [check_fraud] raises exactly when the trimmed text has 50
    characters or more and the digits of its first experience phrase are
    more than [int] converts (4300); what it raises then is ValueError.
    In every other case it returns a report. *)
Theorem check_fraud_raises_iff (current_year : Z) (text filename : str) (e : exn) :
  check_fraud current_year text filename = Raise e <->
  e = ValueError
  /\ (50 <= List.length (strip text))%nat
  /\ exists g, experience_digits text = Some g
               /\ (int_max_str_digits < List.length g)%nat.
Proof.
  split.
  - intros H.
    destruct (le_lt_dec 50 (List.length (strip text))) as [Hlen|Hlen].
    + destruct (experience_digits text) as [g|] eqn:Eg.
      * destruct (le_lt_dec (List.length g) int_max_str_digits) as [Hg|Hg].
        -- destruct (@check_fraud_returns U current_year text filename) as (r & Hr).
           { intros g' Hg'. rewrite Eg in Hg'. injection Hg' as <-. exact Hg. }
           congruence.
        -- rewrite (@check_fraud_raises U current_year text filename g Hlen Eg Hg) in H.
           injection H as <-. eauto.
      * destruct (@check_fraud_returns U current_year text filename) as (r & Hr).
        { intros g' Hg'. rewrite Eg in Hg'. discriminate. }
        congruence.
    + rewrite check_fraud_short in H by assumption. discriminate.
  - intros (-> & Hlen & g & Eg & Hg).
    eapply check_fraud_raises; eassumption.
Qed.

(** X3. The report does not depend on the current year: since no text
    has a graduation year, the only block that reads the year never
    acts. *)
Theorem report_ignores_current_year (year1 year2 : Z) (text filename : str) :
  check_fraud year1 text filename = check_fraud year2 text filename.
Proof.
  unfold check_fraud. destruct (List.length (strip text) <? 50)%nat; [reflexivity|].
  unfold additive_rules, profile_and_timeline_rules.
  destruct (_extract_name text) as [name|]; simpl; [|reflexivity].
  destruct (profile_name_validation _ _ name _) as [st|]; simpl; [|reflexivity].
  rewrite extract_graduation_year_none. simpl.
  destruct (_extract_experience_years text) as [ey|]; reflexivity.
Qed.

(* the tally before the cap, on the full analysis *)
Lemma full_analysis_tally cy text fn r :
  (50 <= List.length (strip text))%nat ->
  check_fraud cy text fn = Ok r ->
  exists name st0 ey,
    _extract_name text = Ok name
    /\ profile_name_validation (search GITHUB_PATTERN text)
         (search LINKEDIN_PATTERN text) name
         (profile_presence (search GITHUB_PATTERN text)
            (search LINKEDIN_PATTERN text) (0, [])) = Ok st0
    /\ _extract_experience_years text = Ok ey
    /\ r = report fn text
             (unrealistic_experience ey (repeated_word_detection text st0)).
Proof.
  intros Hlen H. rewrite check_fraud_full in H by assumption.
  unfold additive_rules in H.
  destruct (profile_and_timeline_rules cy text) as [[st0 ey]|] eqn:E;
    simpl in H; [|discriminate].
  injection H as <-.
  apply profile_and_timeline_rules_inv in E. destruct E as (name & E1 & E2 & E3).
  exists name, st0, ey. auto.
Qed.

(** X4. A report has score 100 exactly when the trimmed text is shorter
    than 50 characters.  On the full analysis the score is one of 0, 15,
    25, 30, 40, 45, 50, 55, 60, 65, 70 and 75: the cap at 100 is never
    reached. *)
Theorem score_values (current_year : Z) (text filename : str) (r : FraudReport) :
  check_fraud current_year text filename = Ok r ->
  (fraud_score r = 100 <-> (List.length (strip text) < 50)%nat)
  /\ In (fraud_score r) [0; 15; 25; 30; 40; 45; 50; 55; 60; 65; 70; 75; 100].
Proof.
  intros H.
  destruct (le_lt_dec 50 (List.length (strip text))) as [Hlen|Hlen].
  - destruct (@full_analysis_tally current_year text filename r Hlen H) as (name & st0 & ey & _ & E & _ & ->).
    apply profile_blocks_values in E.
    destruct (repeated_word_detection_values text st0) as [D|[D _]];
      destruct (unrealistic_experience_values ey (repeated_word_detection text st0))
        as [[X _]|(e & _ & _ & X)];
      rewrite X; clear X; simpl; rewrite D; clear D;
      simpl in E;
      repeat (destruct E as [E|E]; [injection E as <- _; simpl; split; [lia|tauto]|]);
      contradiction.
  - rewrite check_fraud_short in H by assumption. injection H as <-. simpl.
    split; [tauto|]. do 12 right. left. reflexivity.
Qed.

(** X5. A report gives no reason exactly when its score is 0: whatever
    adds to the score, or lifts it, says why. *)
Theorem no_reason_iff_zero (current_year : Z) (text filename : str) (r : FraudReport) :
  check_fraud current_year text filename = Ok r ->
  (reasons r = [] <-> fraud_score r = 0).
Proof.
  intros H. rewrite <- length_zero_iff_nil.
  destruct (le_lt_dec 50 (List.length (strip text))) as [Hlen|Hlen].
  - destruct (@full_analysis_tally current_year text filename r Hlen H) as (name & st0 & ey & _ & E & _ & ->).
    apply profile_blocks_values in E.
    destruct (repeated_word_detection_values text st0) as [D|[D1 D2]];
      destruct (unrealistic_experience_values ey (repeated_word_detection text st0))
        as [[X _]|(e & _ & _ & X)];
      rewrite X; clear X; simpl; rewrite ?length_app; simpl;
      rewrite ?D, ?D1, ?D2;
      simpl in E;
      repeat (destruct E as [E|E]; [injection E as <- <-; lia|]);
      contradiction.
  - rewrite check_fraud_short in H by assumption. injection H as <-. simpl.
    split; [lia|discriminate].
Qed.

End ScoringProperties.

Section ReportProperties.

Context {U : UnicodeData}.

Local Open Scope Z_scope.

Lemma profile_blocks_reasons gm lm name st :
  profile_name_validation gm lm name (profile_presence gm lm (0, [])) = Ok st ->
  Forall plain_reason (snd st).
Proof.
  unfold profile_name_validation, profile_presence, flag.
  destruct gm as [g|], lm as [l|]; simpl; destruct (nonempty name); simpl;
    try destruct (group g) as [ug|]; simpl;
    try destruct (negb (_name_matches name ug)); simpl;
    try destruct (group l) as [ul|]; simpl;
    try destruct (negb (_name_matches name ul)); simpl;
    intros H; try discriminate; injection H as <-; simpl;
    repeat apply Forall_cons; try apply Forall_nil;
    unfold plain_reason;
    first [ left; reflexivity
          | right; left; reflexivity
          | do 2 right; left; reflexivity
          | do 3 right; left; do 2 eexists; reflexivity
          | do 4 right; left; do 2 eexists; reflexivity ].
Qed.

Lemma repeated_word_detection_reasons text st :
  Forall plain_reason (snd st) ->
  Forall plain_reason (snd (repeated_word_detection text st)).
Proof.
  intros H. unfold repeated_word_detection, flag.
  destruct (repeated text) as [|w rep] eqn:E; [exact H|].
  simpl. apply Forall_app. split; [exact H|].
  constructor; [|constructor].
  unfold plain_reason. do 5 right. left. exists (w :: rep).
  split; [discriminate|reflexivity].
Qed.

Lemma unrealistic_experience_reasons ey st :
  Forall plain_reason (snd st) ->
  Forall plain_reason (snd (unrealistic_experience ey st)).
Proof.
  intros H.
  destruct (unrealistic_experience_values ey st) as [[-> _]|(e & _ & He & ->)];
    [exact H|].
  simpl. apply Forall_app. split; [exact H|].
  constructor; [|constructor].
  unfold plain_reason. do 6 right. eauto.
Qed.

Lemma plain_reason_not_timeline reason :
  plain_reason reason ->
  (forall grad_year, reason <> future_reason grad_year)
  /\ (forall exp_years grad_year max_possible,
        reason <> timeline_reason exp_years grad_year max_possible).
Proof.
  unfold plain_reason, future_reason, timeline_reason, short_reason,
    missing_github, missing_linkedin, mismatch_reason, repetition_reason,
    unrealistic_reason.
  intros [->|[->|[->|[(u & n & ->)|[(u & n & ->)|[(rep & _ & ->)|(e & _ & ->)]]]]]];
    split; intros; unfold pystr; simpl; discriminate.
Qed.

(** X6. Every reason of a report is the short-text reason, one of the
    two missing-link reasons, a handle mismatch, the repetition reason or
    the unrealistic-experience reason.  No report ever says that the
    graduation year is in the future or that the claimed experience
    exceeds the time since graduation. *)
Theorem reasons_never_timeline (current_year : Z) (text filename : str)
    (r : FraudReport) (reason : str) :
  check_fraud current_year text filename = Ok r ->
  In reason (reasons r) ->
  plain_reason reason
  /\ (forall grad_year, reason <> future_reason grad_year)
  /\ (forall exp_years grad_year max_possible,
        reason <> timeline_reason exp_years grad_year max_possible).
Proof.
  intros H Hin.
  assert (Hall : Forall plain_reason (reasons r)).
  { destruct (le_lt_dec 50 (List.length (strip text))) as [Hlen|Hlen].
    - destruct (@full_analysis_tally U current_year text filename r Hlen H)
        as (name & st0 & ey & _ & E & _ & ->).
      simpl. apply unrealistic_experience_reasons, repeated_word_detection_reasons.
      eapply profile_blocks_reasons. exact E.
    - rewrite check_fraud_short in H by assumption. injection H as <-. simpl.
      constructor; [|constructor]. left. reflexivity. }
  rewrite Forall_forall in Hall. specialize (Hall reason Hin).
  split; [exact Hall|]. apply plain_reason_not_timeline. exact Hall.
Qed.

(** X7. On the full analysis the status is Suspicious exactly when both
    profile links are flagged (each missing or mismatching) or the
    experience figure exceeds 40.  The repetition rule adds to the score
    and never changes the status. *)
Theorem status_by_profiles_and_override (current_year : Z) (text filename name : str)
    (st : tally) (exp_years : option Z) :
  (50 <= List.length (strip text))%nat ->
  _extract_name text = Ok name ->
  profile_name_validation (search GITHUB_PATTERN text)
    (search LINKEDIN_PATTERN text) name
    (profile_presence (search GITHUB_PATTERN text)
       (search LINKEDIN_PATTERN text) (0, [])) = Ok st ->
  _extract_experience_years text = Ok exp_years ->
  exists r,
    check_fraud current_year text filename = Ok r
    /\ (fraud_status r = Suspicious <->
        List.length (snd st) = 2%nat \/ exists e, exp_years = Some e /\ 40 < e).
Proof.
  intros Hlen Hname Hst Hey.
  rewrite check_fraud_full by assumption.
  unfold additive_rules, profile_and_timeline_rules.
  rewrite Hname. simpl. rewrite Hst. simpl.
  rewrite extract_graduation_year_none. simpl. rewrite Hey. simpl.
  eexists. split; [reflexivity|]. simpl.
  apply profile_blocks_values in Hst.
  destruct (repeated_word_detection_values text st) as [D|[D _]];
    destruct (unrealistic_experience_values exp_years (repeated_word_detection text st))
      as [[X Xe]|(e & Ee & He & X)];
    rewrite X; clear X; simpl; rewrite D; clear D;
    simpl in Hst;
    repeat (destruct Hst as [Hst|Hst];
            [injection Hst as <- <-; simpl;
             split; [intros Hs; try discriminate Hs; eauto
                    |intros [Hs|(e' & Hs & He')];
                     first [lia | reflexivity
                           | specialize (Xe e' Hs); lia]]|]);
    contradiction.
Qed.

(** X8. For each profile site at most one of the two rules fires: a
    missing link adds 25, a handle that matches no part of the name adds
    30.  The two blocks together add 0, 25, 30, 50, 55 or 60, with one
    reason per flagged site; when no name line was found they only
    penalise missing links. *)
Theorem profile_rules_exclusive (github_match linkedin_match : option rematch)
    (name : str) (st : tally) :
  profile_name_validation github_match linkedin_match name
    (profile_presence github_match linkedin_match (0, [])) = Ok st ->
  In (fst st, List.length (snd st))
     [(0, 0%nat); (25, 1%nat); (30, 1%nat); (50, 2%nat); (55, 2%nat); (60, 2%nat)]
  /\ (github_match = None -> In missing_github (snd st))
  /\ (linkedin_match = None -> In missing_linkedin (snd st))
  /\ (name = [] ->
      fst st = (match github_match with None => 25 | Some _ => 0 end)
               + (match linkedin_match with None => 25 | Some _ => 0 end)).
Proof.
  intros H. split; [eapply profile_blocks_values; exact H|].
  revert H. unfold profile_name_validation, profile_presence, flag.
  destruct github_match as [g|], linkedin_match as [l|]; simpl;
    destruct (nonempty name) eqn:En; simpl;
    try destruct (group g) as [ug|]; simpl;
    try destruct (negb (_name_matches name ug)); simpl;
    try destruct (group l) as [ul|]; simpl;
    try destruct (negb (_name_matches name ul)); simpl;
    intros H; try discriminate; injection H as <-; simpl;
    repeat split; intros; subst; try discriminate; auto.
Qed.

(** X9. The timeline block adds nothing, 20 for a graduation year after
    the current year, or 30 for an experience figure above the years
    since graduation, never both: the second rule needs a graduation
    year that is not in the future. *)
Theorem timeline_rules_exclusive (current_year : Z)
    (grad_year exp_years : option Z) (st : tally) :
  education_vs_experience current_year grad_year exp_years st = st
  \/ (exists gy,
        grad_year = Some gy /\ current_year < gy
        /\ education_vs_experience current_year grad_year exp_years st
           = (fst st + 20, snd st ++ [future_reason gy]))
  \/ (exists gy ey,
        grad_year = Some gy /\ exp_years = Some ey
        /\ gy <= current_year /\ current_year - gy < ey
        /\ education_vs_experience current_year grad_year exp_years st
           = (fst st + 30, snd st ++ [timeline_reason ey gy (current_year - gy)])).
Proof.
  unfold education_vs_experience, flag.
  destruct grad_year as [gy|]; [|left; reflexivity].
  destruct (nonzero (Some gy)) eqn:Eg; simpl.
  - destruct (current_year <? gy) eqn:Ef.
    + apply Z.ltb_lt in Ef. right. left. exists gy.
      split; [reflexivity|]. split; [assumption|].
      destruct exp_years as [ey|]; [|reflexivity].
      destruct (nonzero (Some ey)); [|reflexivity].
      assert (E0 : (0 <=? current_year - gy) = false) by (apply Z.leb_gt; lia).
      rewrite E0. reflexivity.
    + apply Z.ltb_ge in Ef.
      destruct exp_years as [ey|]; [|left; reflexivity].
      destruct (nonzero (Some ey)); [|left; reflexivity].
      destruct ((0 <=? current_year - gy) && (current_year - gy <? ey)) eqn:Em;
        [|left; reflexivity].
      apply andb_true_iff in Em. destruct Em as [_ Em]. apply Z.ltb_lt in Em.
      right. right. exists gy, ey. auto.
  - left. destruct exp_years; reflexivity.
Qed.

(** X10. [_name_matches] is false when the name or the handle is empty,
    and false for every handle when no part of the lower-cased name has
    more than two characters. *)
Theorem short_name_parts_never_match (candidate_name profile_username : str) :
  candidate_name = [] \/ profile_username = []
  \/ (forall part, In part (split (lower candidate_name)) ->
                   (List.length part <= 2)%nat) ->
  _name_matches candidate_name profile_username = false.
Proof.
  unfold _name_matches. intros [->|[->|H]].
  - reflexivity.
  - destruct candidate_name; reflexivity.
  - destruct (negb (nonempty candidate_name) || negb (nonempty profile_username));
      [reflexivity|].
    replace (filter _ (split (lower candidate_name))) with (@nil str);
      [reflexivity|].
    symmetry. induction (split (lower candidate_name)) as [|p ps IH];
      [reflexivity|].
    simpl. assert (Hp : (List.length p <= 2)%nat) by (apply H; left; reflexivity).
    destruct (2 <? List.length p)%nat eqn:E; [apply Nat.ltb_lt in E; lia|].
    apply IH. intros part Hin. apply H. right. exact Hin.
Qed.

End ReportProperties.

Section TokenProperties.

Context {U : UnicodeData}.

Lemma letter_runs_from_shape s :
  forall cur,
    Forall (fun c => is_letter c = true) cur ->
    Forall (fun w => (3 <= List.length w)%nat
                     /\ Forall (fun c => is_letter c = true) w)
           (letter_runs_from cur s).
Proof.
  assert (Hrun : forall cur,
    Forall (fun c => is_letter c = true) cur ->
    Forall (fun w => (3 <= List.length w)%nat
                     /\ Forall (fun c => is_letter c = true) w)
           (long_run (rev cur))).
  { intros cur Hcur. unfold long_run.
    destruct (3 <=? List.length (rev cur))%nat eqn:E; [|constructor].
    apply Nat.leb_le in E. constructor; [|constructor].
    split; [exact E|]. apply Forall_rev. exact Hcur. }
  induction s as [|c s IH]; intros cur Hcur; simpl.
  - apply Hrun. exact Hcur.
  - destruct (is_letter c) eqn:Ec.
    + apply IH. constructor; assumption.
    + apply Forall_app. split; [apply Hrun; exact Hcur|apply IH; constructor].
Qed.

Lemma letter_runs_from_total s :
  forall cur,
    (total_length (letter_runs_from cur s) <= List.length cur + List.length s)%nat.
Proof.
  assert (Hrun : forall cur,
    (total_length (long_run (rev cur)) <= List.length cur)%nat).
  { intros cur. unfold long_run.
    destruct (3 <=? List.length (rev cur))%nat; simpl; [|lia].
    rewrite length_rev. lia. }
  assert (Happ : forall l1 l2,
    total_length (l1 ++ l2) = (total_length l1 + total_length l2)%nat).
  { induction l1 as [|w l1 IH1]; intros l2; simpl; [reflexivity|].
    rewrite IH1. lia. }
  induction s as [|c s IH]; intros cur; simpl.
  - pose proof (Hrun cur). lia.
  - destruct (is_letter c).
    + specialize (IH (c :: cur)). simpl in IH. lia.
    + rewrite Happ. pose proof (Hrun cur). specialize (IH []). simpl in IH. lia.
Qed.

Lemma occurrences_total w ws :
  (occurrences w ws * List.length w <= total_length ws)%nat.
Proof.
  unfold occurrences. induction ws as [|x ws IH]; simpl; [lia|].
  destruct (str_eq_dec x w) as [->|_]; simpl; lia.
Qed.

(** X11. Every token the repetition block counts is a run of at least
    three letters a-z or A-Z of the lower-cased text: digits, punctuation
    and shorter words never count.  The tokens do not overlap, so the
    rule cannot fire on a lower-cased text of fewer than 78 characters. *)
Theorem tokens_shape (text : str) :
  Forall (fun w => (3 <= List.length w)%nat
                   /\ Forall (fun c => is_letter c = true) w)
         (words text)
  /\ (total_length (words text) <= List.length (lower text))%nat
  /\ (repeated text <> [] -> (78 <= List.length (lower text))%nat).
Proof.
  unfold words at 1 2. rewrite findall_word_runs. unfold letter_runs.
  pose proof (letter_runs_from_shape (lower text) (@Forall_nil _ _)) as Hshape.
  pose proof (letter_runs_from_total (lower text) []) as Htotal.
  simpl in Htotal.
  split; [exact Hshape|]. split; [exact Htotal|].
  intros Hrep. destruct (repeated text) as [|w rep] eqn:E; [congruence|].
  assert (Hw : In w (repeated text)) by (rewrite E; left; reflexivity).
  apply repeated_in in Hw.
  assert (Hin : In w (words text)).
  { unfold occurrences in Hw.
    apply (count_occ_In str_eq_dec). lia. }
  unfold words in Hin, Hw. rewrite findall_word_runs in Hin, Hw.
  unfold letter_runs in Hin, Hw.
  rewrite Forall_forall in Hshape. destruct (Hshape w Hin) as [H3 _].
  pose proof (occurrences_total w (letter_runs_from [] (lower text))) as Hocc.
  nia.
Qed.

End TokenProperties.

(** * Where the patterns match *)

Section Positions.

Context {U : UnicodeData}.

Lemma last_char_snoc b pre c : last_char b (pre ++ [c]) = Some c.
Proof. unfold last_char. rewrite fold_left_app. reflexivity. Qed.

Lemma last_char_app b p1 p2 : last_char b (p1 ++ p2) = last_char (last_char b p1) p2.
Proof. unfold last_char. apply fold_left_app. Qed.

(** [search] stops at the leftmost position that has a match. *)
Lemma search_from_position p s :
  forall b m,
    search_from p b s = Some m ->
    exists pre s',
      s = pre ++ s'
      /\ match_at p (last_char b pre) s' = Some m
      /\ forall p1 p2, pre = p1 ++ p2 -> p2 <> [] ->
           match_at p (last_char b p1) (p2 ++ s') = None.
Proof.
  induction s as [|c s IH]; intros b m H; simpl in H.
  - destruct (match_at p b []) eqn:E; [|discriminate].
    injection H as ->. exists [], []. repeat split; auto.
    intros p1 p2 Hp Hne. destruct p1; [|discriminate]. simpl in Hp. congruence.
  - destruct (match_at p b (c :: s)) eqn:E.
    + injection H as ->. exists [], (c :: s). repeat split; auto.
      intros p1 p2 Hp Hne. destruct p1; [|discriminate]. simpl in Hp. congruence.
    + apply IH in H. destruct H as (pre & s' & -> & Hm & Hleft).
      exists (c :: pre), s'. split; [reflexivity|]. split; [exact Hm|].
      intros p1 p2 Hp Hne. destruct p1 as [|x p1].
      * simpl in Hp. subst p2. simpl. exact E.
      * simpl in Hp. injection Hp as <- ->. simpl. apply Hleft; auto.
Qed.

Lemma search_from_None p s :
  forall b,
    search_from p b s = None <->
    forall pre s', s = pre ++ s' -> match_at p (last_char b pre) s' = None.
Proof.
  induction s as [|c s IH]; intros b; simpl.
  - destruct (match_at p b []) eqn:E.
    + split; [discriminate|]. intros H. specialize (H [] [] eq_refl).
      simpl in H. congruence.
    + split; [|reflexivity]. intros _ pre s' Hs.
      destruct pre; [|discriminate]. simpl in Hs. subst s'. exact E.
  - destruct (match_at p b (c :: s)) eqn:E.
    + split; [discriminate|]. intros H. specialize (H [] (c :: s) eq_refl).
      simpl in H. congruence.
    + rewrite IH. split.
      * intros H pre s' Hs. destruct pre as [|x pre].
        -- simpl in Hs. subst s'. exact E.
        -- simpl in Hs. injection Hs as <- ->. apply (H pre s' eq_refl).
      * intros H pre s' Hs. apply (H (c :: pre) s'). simpl. congruence.
Qed.

Lemma class_split ic cs s : s = class_prefix ic cs s ++ class_rest ic cs s.
Proof.
  induction s as [|c s IH]; simpl; [reflexivity|].
  destruct (in_cset ic cs c); simpl; congruence.
Qed.

Lemma class_prefix_all ic cs s :
  Forall (fun c => in_cset ic cs c = true) (class_prefix ic cs s).
Proof.
  induction s as [|c s IH]; simpl; [constructor|].
  destruct (in_cset ic cs c) eqn:E; constructor; assumption.
Qed.

Lemma class_rest_head ic cs s c r :
  class_rest ic cs s = c :: r -> in_cset ic cs c = false.
Proof.
  induction s as [|x s IH]; simpl; [discriminate|].
  destruct (in_cset ic cs x) eqn:E; [assumption|]. congruence.
Qed.

Lemma class_prefix_idem ic cs s :
  class_prefix ic cs (class_prefix ic cs s ++ class_rest ic cs s)
  = class_prefix ic cs s.
Proof. rewrite <- class_split. reflexivity. Qed.

Lemma or_else_total A (a b : option A) : b <> None -> or_else a b <> None.
Proof. destruct a; simpl; [discriminate|auto]. Qed.

(** An unbounded greedy repetition before a continuation that cannot
    fail takes every character of the class there is. *)
Lemma rep_greedy_total A ic cs (k : mstate -> option A) g :
  (forall st, k st <> None) ->
  forall s lo b,
    exists b',
      rep_greedy ic cs lo None b s g k
      = if (lo <=? List.length (class_prefix ic cs s))%nat
        then k {| m_before := b'; m_rest := class_rest ic cs s; m_group := g |}
        else None.
Proof.
  intros Hk. induction s as [|c s IH]; intros lo b.
  - exists b. simpl. destruct lo; reflexivity.
  - cbn [rep_greedy option_map class_prefix class_rest].
    destruct (in_cset ic cs c) eqn:Ec.
    + destruct (IH (pred lo) (Some c)) as (b' & ->). exists b'.
      simpl List.length. destruct lo as [|lo]; simpl.
      * destruct (k _) eqn:Ek; [reflexivity|]. apply Hk in Ek. contradiction.
      * destruct (lo <=? List.length (class_prefix ic cs s))%nat; [|reflexivity].
        destruct (k _) eqn:Ek; [reflexivity|]. apply Hk in Ek. contradiction.
    + exists b. destruct lo; reflexivity.
Qed.

Lemma rmatch_Seq_sound A ic ml r1 r2 st (k : mstate -> option A) x :
  rmatch ic ml (Seq r1 r2) st k = Some x ->
  exists st1, matches ic ml r1 st st1 /\ rmatch ic ml r2 st1 k = Some x.
Proof. simpl. apply rmatch_sound. Qed.

End Positions.

Section PatternProperties.

Context {U : UnicodeData}.

Lemma matches_OneOf_inv ic ml cs st st' :
  matches ic ml (OneOf cs) st st' ->
  exists c s,
    m_rest st = c :: s /\ in_cset ic cs c = true /\ m_rest st' = s.
Proof. inversion 1; subst; simpl; eauto. Qed.

Lemma matches_Bol_inv ic ml st st' :
  matches ic ml Bol st st' -> st' = st /\ at_line_start ml st = true.
Proof. inversion 1; subst; auto. Qed.

(* a profile link: the optional scheme and www, the site, then the handle *)
Lemma profile_link_match site b s m :
  match_at {| p_regex := seqs (url_prefix ++ [L site; Group (Rep 1 None profile_handle)]);
              p_ignorecase := true; p_multiline := false |} b s = Some m ->
  exists link tail,
    s = link ++ tail
    /\ matched m = link ++ class_prefix true profile_handle tail
    /\ group1 m = Some (class_prefix true profile_handle tail)
    /\ class_prefix true profile_handle tail <> [].
Proof.
  unfold match_at. cbn [p_regex p_ignorecase p_multiline].
  change (seqs (url_prefix ++ [L site; Group (Rep 1 None profile_handle)]))
    with (Seq (Opt (seqs [L "http"; Opt (L "s"); L "://"]))
            (Seq (Opt (L "www."))
               (Seq (L site) (Group (Rep 1 None profile_handle))))).
  intros H.
  apply rmatch_Seq_sound in H. destruct H as (st1 & M1 & H).
  apply rmatch_Seq_sound in H. destruct H as (st2 & M2 & H).
  apply rmatch_Seq_sound in H. destruct H as (st3 & M3 & H).
  apply matches_suffix in M1, M2, M3. simpl in M1.
  destruct M1 as (p1 & E1), M2 as (p2 & E2), M3 as (p3 & E3).
  cbn [rmatch] in H.
  match type of H with
  | rep_greedy ?ic ?cs ?lo None ?bb ?ss ?g ?k = _ =>
      destruct (@rep_greedy_total U _ ic cs k g
                  ltac:(intros; cbv beta; discriminate) ss lo bb) as (b' & E)
  end.
  rewrite E in H. clear E.
  destruct (1 <=? List.length (class_prefix true profile_handle (m_rest st3)))%nat
    eqn:Elen; [|discriminate].
  injection H as <-. cbn [matched group1 m_group m_rest m_before].
  assert (Es : s = (p1 ++ p2 ++ p3) ++ m_rest st3).
  { rewrite E1, E2, E3, !app_assoc. reflexivity. }
  exists (p1 ++ p2 ++ p3), (m_rest st3).
  split; [exact Es|].
  pose proof (class_split true profile_handle (m_rest st3)) as Ec.
  split; [|split].
  - apply consumed_app. simpl. rewrite Es at 1. rewrite Ec at 1.
    rewrite app_assoc. reflexivity.
  - f_equal. apply consumed_app. simpl. exact Ec.
  - apply Nat.leb_le in Elen.
    destruct (class_prefix true profile_handle (m_rest st3)); [simpl in Elen; lia|discriminate].
Qed.

(** X12. The handle of a GitHub or LinkedIn link is never empty and is
    the whole run of characters of [[A-Za-z0-9_-]] (compared without
    case) that follows the site: it stops at the first other character,
    so the handle of github.com/john.smith is john. *)
Theorem profile_handle_shape (p : pattern) (text : str) (m : rematch) :
  p = GITHUB_PATTERN \/ p = LINKEDIN_PATTERN ->
  search p text = Some m ->
  exists before link handle after,
    text = before ++ link ++ handle ++ after
    /\ matched m = link ++ handle
    /\ group m = Ok handle
    /\ handle <> []
    /\ Forall (fun c => in_cset true profile_handle c = true) handle
    /\ (after = []
        \/ exists c r, after = c :: r /\ in_cset true profile_handle c = false).
Proof.
  intros Hp H. apply search_from_position in H.
  destruct H as (before & s' & -> & H & _).
  assert (Hm : exists link tail,
    s' = link ++ tail
    /\ matched m = link ++ class_prefix true profile_handle tail
    /\ group1 m = Some (class_prefix true profile_handle tail)
    /\ class_prefix true profile_handle tail <> []).
  { destruct Hp as [-> | ->].
    - apply (profile_link_match "github.com/" _ _ H).
    - apply (profile_link_match "linkedin.com/in/" _ _ H). }
  destruct Hm as (link & tail & -> & Hmatched & Hgroup & Hne).
  exists before, link, (class_prefix true profile_handle tail),
    (class_rest true profile_handle tail).
  rewrite <- class_split.
  split; [reflexivity|]. split; [exact Hmatched|].
  split; [unfold group; rewrite Hgroup; reflexivity|].
  split; [exact Hne|]. split; [apply class_prefix_all|].
  destruct (class_rest true profile_handle tail) as [|c r] eqn:Er; [left; reflexivity|].
  right. exists c, r. split; [reflexivity|].
  eapply class_rest_head. exact Er.
Qed.

Lemma name_match_sound b s m :
  match_at NAME_PATTERN b s = Some m ->
  name_line_start b s = true /\ group1 m = Some (matched m).
Proof.
  intros H. apply match_at_sound in H. destruct H as (st' & Hm & Hg & Hs).
  simpl in Hm.
  apply matches_Seq_inv in Hm. destruct Hm as (st0 & H0 & Hm).
  apply matches_Bol_inv in H0. destruct H0 as [-> Hbol].
  apply matches_Group_inv in Hm. destruct Hm as (st1 & Hm & ->).
  simpl in Hg, Hs.
  pose proof (matches_suffix Hm) as (pre & Epre). simpl in Epre.
  split.
  - apply matches_Seq_inv in Hm. destruct Hm as (st2 & H1 & Hm).
    apply matches_OneOf_inv in H1. destruct H1 as (c1 & s1 & E1 & Hc1 & E2).
    apply matches_Seq_inv in Hm. destruct Hm as (st3 & H2 & _).
    apply matches_Rep_inv, rep_matches_chars in H2.
    destruct H2 as (run & Erun & Hrun & Hlen).
    simpl in E1. rewrite <- E2, Erun in E1.
    destruct run as [|c2 run]; [simpl in Hlen; lia|].
    pose proof (Forall_inv Hrun) as Hc2. simpl in Hc2.
    unfold name_line_start. rewrite E1. simpl.
    simpl in Hc1, Hc2. rewrite !orb_false_r in Hc1, Hc2.
    rewrite Hc1, Hc2.
    unfold at_line_start in Hbol. simpl in Hbol.
    destruct b; [rewrite Hbol|]; reflexivity.
  - rewrite Hg. f_equal.
    rewrite (@consumed_app {| m_before := b; m_rest := s; m_group := None |} st1 pre Epre).
    apply app_inv_tail with (l := m_rest st1). rewrite <- Epre. exact Hs.
Qed.

Lemma name_match_complete b s :
  name_line_start b s = true -> match_at NAME_PATTERN b s <> None.
Proof.
  unfold name_line_start. intros H. apply andb_true_iff in H. destruct H as [Hb Hs].
  destruct s as [|c1 [|c2 s]]; try discriminate.
  apply andb_true_iff in Hs. destruct Hs as [H1 H2].
  unfold match_at, NAME_PATTERN.
  cbn [p_regex p_ignorecase p_multiline].
  change (Seq Bol (Group (seqs (capitalized ++
            [upto 3 (seqs (Rep 1 None Space :: capitalized))]))))
    with (Seq Bol (Group (Seq (OneOf (Chars [Range (chr "A") (chr "Z")]))
            (Seq (Rep 1 None (Chars [Range (chr "a") (chr "z")]))
               (Opt (Seq (seqs (Rep 1 None Space :: capitalized))
                         (upto 2 (seqs (Rep 1 None Space :: capitalized))))))))).
  cbn [rmatch m_rest m_before m_group].
  assert (Hbol : at_line_start true {| m_before := b; m_rest := c1 :: c2 :: s;
                                        m_group := None |} = true).
  { unfold at_line_start. simpl. destruct b; [exact Hb|reflexivity]. }
  rewrite Hbol.
  assert (Hc1 : in_cset false (Chars [Range (chr "A") (chr "Z")]) c1 = true).
  { simpl in H1 |- *. rewrite H1. reflexivity. }
  rewrite Hc1.
  match goal with
  | |- rep_greedy ?ic ?cs ?lo None ?bb ?ss ?g ?k <> None =>
      assert (Hk : forall st, k st <> None)
        by (intros st; cbv beta; apply or_else_total; discriminate);
      destruct (@rep_greedy_total U _ ic cs k g Hk ss lo bb) as (b' & E);
      rewrite E; clear E
  end.
  assert (Hlen : (1 <=? List.length
                    (class_prefix false (Chars [Range (chr "a") (chr "z")]) (c2 :: s)))%nat
                 = true).
  { cbn [class_prefix].
    assert (Hc2 : in_cset false (Chars [Range (chr "a") (chr "z")]) c2 = true)
      by (simpl in H2 |- *; rewrite H2; reflexivity).
    rewrite Hc2. reflexivity. }
  rewrite Hlen. apply Hk.
Qed.

(** X13. A candidate name is found exactly when some line of the text
    starts with a capital letter A-Z followed by a small letter a-z, and
    it is taken from the first such line, starting at the beginning of
    the line; group 1 is the whole match.  When no line starts so, the
    name is empty. *)
Theorem name_line_found (text : str) :
  (search NAME_PATTERN text = None <->
   forall pre s, text = pre ++ s -> name_line_start (last_char None pre) s = false)
  /\ ((forall pre s, text = pre ++ s ->
                     name_line_start (last_char None pre) s = false) ->
      _extract_name text = Ok [])
  /\ (forall m,
        search NAME_PATTERN text = Some m ->
        exists pre post,
          text = pre ++ matched m ++ post
          /\ group m = Ok (matched m)
          /\ _extract_name text = Ok (strip (matched m))
          /\ name_line_start (last_char None pre) (matched m ++ post) = true
          /\ forall p1 p2, pre = p1 ++ p2 -> p2 <> [] ->
               name_line_start (last_char None p1) (p2 ++ matched m ++ post) = false).
Proof.
  assert (Hiff : forall b s, match_at NAME_PATTERN b s = None <->
                             name_line_start b s = false).
  { intros b s. split.
    - intros H. destruct (name_line_start b s) eqn:E; [|reflexivity].
      apply name_match_complete in E. contradiction.
    - intros H. destruct (match_at NAME_PATTERN b s) eqn:E; [|reflexivity].
      apply name_match_sound in E. destruct E as [E _]. congruence. }
  assert (Hnone : search NAME_PATTERN text = None <->
    forall pre s, text = pre ++ s -> name_line_start (last_char None pre) s = false).
  { unfold search. rewrite search_from_None. split.
    - intros H pre s Hs. apply Hiff. apply H. exact Hs.
    - intros H pre s Hs. apply Hiff. apply H. exact Hs. }
  split; [exact Hnone|]. split.
  - intros H. apply Hnone in H. unfold _extract_name. rewrite H. reflexivity.
  - intros m H. pose proof H as Hsearch. unfold search in H.
    apply search_from_position in H.
    destruct H as (pre & s' & -> & Hm & Hleft).
    pose proof (match_at_sound _ _ _ Hm) as (st' & _ & _ & Hs').
    pose proof (name_match_sound _ _ Hm) as [Hstart Hgroup].
    exists pre, (m_rest st'). rewrite <- Hs'.
    split; [reflexivity|].
    split; [unfold group; rewrite Hgroup; reflexivity|].
    split; [unfold _extract_name, group; rewrite Hsearch, Hgroup; reflexivity|].
    split; [exact Hstart|].
    intros p1 p2 Hp Hne. apply Hiff. apply Hleft; assumption.
Qed.

End PatternProperties.

(** * Text extraction and the upload route *)

Section Paths.

Local Open Scope Z_scope.

Lemma rfind_from_spec c s :
  -1 <= rfind c s < Z.of_nat (List.length s)
  /\ forall i last,
       rfind_from c s i last = if rfind c s =? -1 then last else i + rfind c s.
Proof.
  induction s as [|x s [IHb IH]].
  - split; [unfold rfind; simpl; lia|]. intros i last. reflexivity.
  - assert (E : rfind c (x :: s)
                = if rfind c s =? -1 then (if N.eqb x c then 0 else -1)
                  else 1 + rfind c s).
    { unfold rfind at 1. simpl. rewrite IH. reflexivity. }
    split.
    + rewrite E. simpl List.length.
      destruct (rfind c s =? -1) eqn:Er; [destruct (N.eqb x c)|]; lia.
    + intros i last. simpl. rewrite IH, E.
      destruct (rfind c s =? -1) eqn:Er.
      * destruct (N.eqb x c); simpl; [f_equal; lia|reflexivity].
      * assert (E1 : (1 + rfind c s =? -1) = false) by (apply Z.eqb_neq; lia).
        rewrite E1. lia.
Qed.

Lemma rfind_from_app c a :
  forall b i last,
    rfind_from c (a ++ b) i last
    = rfind_from c b (i + Z.of_nat (List.length a)) (rfind_from c a i last).
Proof.
  induction a as [|x a IH]; intros b i last; simpl List.length.
  - simpl. f_equal. lia.
  - simpl rfind_from. rewrite IH. f_equal. lia.
Qed.

Lemma rfind_app c a b :
  rfind c (a ++ b)
  = if rfind c b =? -1 then rfind c a else Z.of_nat (List.length a) + rfind c b.
Proof.
  unfold rfind at 1. rewrite rfind_from_app.
  destruct (rfind_from_spec c b) as [_ ->]. reflexivity.
Qed.

Lemma skipn_past A (a b : list A) k :
  skipn (List.length a + k) (a ++ b) = skipn k b.
Proof.
  induction a as [|x a IH]; simpl; [reflexivity|exact IH].
Qed.

(** The extension only depends on the last component of a path. *)
Lemma splitext_after_sep dir f :
  snd (splitext ((dir ++ [chr "/"]) ++ f)) = snd (splitext f).
Proof.
  pose proof (rfind_from_spec (chr "/") f) as [Hsf _].
  pose proof (rfind_from_spec (chr ".") f) as [Hdf _].
  pose proof (rfind_from_spec (chr ".") dir) as [Hdd _].
  assert (Esep : rfind (chr "/") ((dir ++ [chr "/"]) ++ f)
                 = Z.of_nat (List.length (dir ++ [chr "/"])) + rfind (chr "/") f).
  { rewrite rfind_app. destruct (rfind (chr "/") f =? -1) eqn:E; [|reflexivity].
    apply Z.eqb_eq in E. rewrite E, rfind_app, length_app.
    change (rfind (chr "/") [chr "/"]) with 0. simpl. lia. }
  assert (Edot : rfind (chr ".") ((dir ++ [chr "/"]) ++ f)
                 = if rfind (chr ".") f =? -1 then rfind (chr ".") dir
                   else Z.of_nat (List.length (dir ++ [chr "/"])) + rfind (chr ".") f).
  { rewrite rfind_app. destruct (rfind (chr ".") f =? -1); [|reflexivity].
    rewrite rfind_app. change (rfind (chr ".") [chr "/"]) with (-1).
    reflexivity. }
  unfold splitext. rewrite Esep, Edot.
  set (n := List.length (dir ++ [chr "/"])).
  assert (Hn : Z.of_nat n = Z.of_nat (List.length dir) + 1)
    by (unfold n; rewrite length_app; simpl; lia).
  destruct (rfind (chr ".") f =? -1) eqn:Ed.
  - apply Z.eqb_eq in Ed. rewrite Ed.
    assert (E1 : (Z.of_nat n + rfind (chr "/") f <? rfind (chr ".") dir) = false)
      by (apply Z.ltb_ge; lia).
    assert (E2 : (rfind (chr "/") f <? -1) = false) by (apply Z.ltb_ge; lia).
    rewrite E1, E2. reflexivity.
  - apply Z.eqb_neq in Ed.
    assert (E1 : (Z.of_nat n + rfind (chr "/") f <? Z.of_nat n + rfind (chr ".") f)
                 = (rfind (chr "/") f <? rfind (chr ".") f)).
    { destruct (rfind (chr "/") f <? rfind (chr ".") f) eqn:E.
      - apply Z.ltb_lt in E. apply Z.ltb_lt. lia.
      - apply Z.ltb_ge in E. apply Z.ltb_ge. lia. }
    rewrite E1.
    destruct (rfind (chr "/") f <? rfind (chr ".") f) eqn:Elt; [|reflexivity].
    assert (Eslice : slice ((dir ++ [chr "/"]) ++ f)
                       (Z.of_nat n + rfind (chr "/") f + 1)
                       (Z.of_nat n + rfind (chr ".") f)
                     = slice f (rfind (chr "/") f + 1) (rfind (chr ".") f)).
    { unfold slice. f_equal; [f_equal; lia|].
      replace (Z.to_nat (Z.of_nat n + rfind (chr "/") f + 1))
        with (n + Z.to_nat (rfind (chr "/") f + 1))%nat by lia.
      subst n. apply skipn_past. }
    rewrite Eslice.
    match goal with
    | |- context [existsb ?p ?l] => destruct (existsb p l)
    end; [|reflexivity].
    cbn [snd].
    replace (Z.to_nat (Z.of_nat n + rfind (chr ".") f))
      with (n + Z.to_nat (rfind (chr ".") f))%nat by lia.
    subst n. apply skipn_past.
Qed.

Lemma endswith_sep_snoc a :
  endswith_sep a = true -> exists dir, a = dir ++ [chr "/"].
Proof.
  unfold endswith_sep. intros H.
  destruct (rev a) as [|c r] eqn:E; [discriminate|].
  apply N.eqb_eq in H. subst c. exists (rev r).
  rewrite <- (rev_involutive a), E. reflexivity.
Qed.

Lemma splitext_path_join dir f :
  snd (splitext (path_join dir f)) = snd (splitext f).
Proof.
  unfold path_join. destruct (startswith (pystr "/") f); [reflexivity|].
  destruct dir as [|c dir]; [reflexivity|].
  simpl nonempty. simpl negb. simpl orb.
  destruct (endswith_sep (c :: dir)) eqn:E.
  - apply endswith_sep_snoc in E. destruct E as (d & ->).
    apply splitext_after_sep.
  - change (pystr "/") with [chr "/"]. rewrite app_assoc.
    apply splitext_after_sep.
Qed.

End Paths.

Section Extraction.

Context {U : UnicodeData}.
Context {D : Documents}.

Lemma join_blank parts :
  isspace 10%N = true ->
  Forall (Forall (fun c => isspace c = true)) parts ->
  Forall (fun c => isspace c = true) (join newline parts).
Proof.
  intros Hnl. induction 1 as [|t parts Ht Hparts IH]; [constructor|].
  destruct parts as [|t' parts]; [exact Ht|].
  change (join newline (t :: t' :: parts))
    with (t ++ newline ++ join newline (t' :: parts)).
  apply Forall_app. split; [exact Ht|].
  apply Forall_app. split; [|exact IH].
  constructor; [exact Hnl|constructor].
Qed.

Lemma page_texts_blank pages :
  Forall (fun page => exists t, page = Got t /\ Forall (fun c => isspace c = true) t)
         pages ->
  exists parts,
    page_texts pages = Got parts
    /\ Forall (Forall (fun c => isspace c = true)) parts.
Proof.
  induction 1 as [|page pages (t & -> & Ht) Hpages (parts & E & Hparts)].
  - exists []. split; [reflexivity|constructor].
  - simpl. rewrite E. eexists. split; [reflexivity|].
    destruct (nonempty t); [constructor|]; assumption.
Qed.

(** X14. The upload route and the extractor read the same extension: the
    extension of the path the upload is saved at is the extension of the
    file name, whatever the upload directory.  So an upload the route
    accepts is always handed to the PDF or the DOCX extractor, and never
    fails as an unsupported file type. *)
Theorem accepted_upload_is_extracted (UPLOAD_DIR filename : str) :
  extension_allowed filename = true ->
  snd (splitext (upload_path UPLOAD_DIR filename)) = snd (splitext filename)
  /\ (extract_text (upload_path UPLOAD_DIR filename)
      = extract_text_from_pdf (upload_path UPLOAD_DIR filename)
      \/ extract_text (upload_path UPLOAD_DIR filename)
         = extract_text_from_docx (upload_path UPLOAD_DIR filename))
  /\ forall ext,
       extract_text (upload_path UPLOAD_DIR filename) <> UnsupportedFileType ext.
Proof.
  intros H. unfold upload_path.
  pose proof (splitext_path_join UPLOAD_DIR filename) as E.
  split; [exact E|].
  unfold extension_allowed, ALLOWED_EXTENSIONS in H. simpl in H.
  rewrite orb_false_r in H.
  unfold extract_text. rewrite E.
  destruct (str_eqb (lower (snd (splitext filename))) (pystr ".pdf")) eqn:Epdf.
  - split; [left; reflexivity|]. intros ext.
    unfold extract_text_from_pdf.
    destruct (PdfReader _) as [pages|]; [|discriminate].
    destruct (page_texts pages); discriminate.
  - simpl in H. rewrite H.
    split; [right; reflexivity|]. intros ext.
    unfold extract_text_from_docx.
    destruct (Document _); discriminate.
Qed.

(** X15. A PDF none of whose pages has anything but white space is
    extracted to a text of white space, and its report is the short-text
    report with score 100: a scanned document is always Suspicious. *)
Theorem blank_pdf_report (current_year : Z) (filepath filename : str)
    (pages : list (outcome str)) :
  isspace 10%N = true ->
  PdfReader filepath = Got pages ->
  Forall (fun page => exists t, page = Got t /\ Forall (fun c => isspace c = true) t)
         pages ->
  exists text,
    extract_text_from_pdf filepath = Text text
    /\ check_fraud current_year text filename =
       Ok {| filename := filename;
             fraud_score := 100;
             fraud_status := Suspicious;
             reasons := [pystr "Resume content is empty or too short (< 50 characters)"];
             extracted_preview := firstn 300 text |}.
Proof.
  intros Hnl Hreader Hpages.
  apply page_texts_blank in Hpages. destruct Hpages as (parts & E & Hparts).
  unfold extract_text_from_pdf. rewrite Hreader, E.
  eexists. split; [reflexivity|].
  apply check_fraud_short.
  rewrite (strip_blank (join_blank Hnl Hparts)). simpl. lia.
Qed.

(** X16. A DOCX whose paragraphs hold nothing but white space is
    extracted to a text of white space, however many paragraphs it has,
    and its report is the short-text report with score 100. *)
Theorem blank_docx_report (current_year : Z) (filepath filename : str)
    (paragraphs : list str) :
  isspace 10%N = true ->
  Document filepath = Got paragraphs ->
  Forall (Forall (fun c => isspace c = true)) paragraphs ->
  extract_text_from_docx filepath = Text (join newline paragraphs)
  /\ check_fraud current_year (join newline paragraphs) filename =
     Ok {| filename := filename;
           fraud_score := 100;
           fraud_status := Suspicious;
           reasons := [pystr "Resume content is empty or too short (< 50 characters)"];
           extracted_preview := firstn 300 (join newline paragraphs) |}.
Proof.
  intros Hnl Hdoc Hparagraphs.
  unfold extract_text_from_docx. rewrite Hdoc.
  split; [reflexivity|].
  apply check_fraud_short.
  rewrite (strip_blank (join_blank Hnl Hparagraphs)). simpl. lia.
Qed.

End Extraction.

(** * The further properties at concrete inputs *)

Section FurtherWitnesses.

Local Existing Instance ascii_data.
Local Existing Instance blank_documents.
Local Open Scope Z_scope.

Lemma blank_text_report_witness :
  Forall (fun c => isspace c = true) (repeat (chr " ") 60)
  /\ check_fraud 2024 (repeat (chr " ") 60) resume_pdf =
     Ok {| filename := resume_pdf;
           fraud_score := 100;
           fraud_status := Suspicious;
           reasons := [pystr "Resume content is empty or too short (< 50 characters)"];
           extracted_preview := firstn 300 (repeat (chr " ") 60) |}.
Proof.
  assert (H : Forall (fun c => isspace c = true) (repeat (chr " ") 60))
    by (simpl repeat; repeat (constructor; [reflexivity|]); constructor).
  split; [exact H|].
  apply (@blank_text_report ascii_data 2024 (repeat (chr " ") 60) resume_pdf).
  right. exact H.
Defined.

Lemma score_values_witness :
  check_fraud 2024 john_smith_resume resume_pdf = Ok john_smith_report
  /\ (fraud_score john_smith_report = 100 <->
      (List.length (strip john_smith_resume) < 50)%nat)
  /\ In (fraud_score john_smith_report)
        [0; 15; 25; 30; 40; 45; 50; 55; 60; 65; 70; 75; 100].
Proof.
  split; [vm_compute; reflexivity|].
  apply (@score_values ascii_data 2024 john_smith_resume resume_pdf john_smith_report).
  vm_compute; reflexivity.
Defined.

Lemma no_reason_iff_zero_witness :
  check_fraud 2024 veteran_resume resume_pdf = Ok veteran_report
  /\ (reasons veteran_report = [] <-> fraud_score veteran_report = 0).
Proof.
  split; [vm_compute; reflexivity|].
  apply (@no_reason_iff_zero ascii_data 2024 veteran_resume resume_pdf veteran_report).
  vm_compute; reflexivity.
Defined.

Lemma reasons_never_timeline_witness :
  check_fraud 2024 alpha_beta_26 resume_pdf = Ok alpha_beta_report
  /\ In missing_github (reasons alpha_beta_report)
  /\ plain_reason missing_github
  /\ (forall grad_year, missing_github <> future_reason grad_year)
  /\ (forall exp_years grad_year max_possible,
        missing_github <> timeline_reason exp_years grad_year max_possible).
Proof.
  split; [vm_compute; reflexivity|].
  split; [left; reflexivity|].
  apply (@reasons_never_timeline ascii_data 2024 alpha_beta_26 resume_pdf
           alpha_beta_report missing_github).
  - vm_compute; reflexivity.
  - left; reflexivity.
Defined.

Lemma status_by_profiles_and_override_witness :
  (50 <= List.length (strip veteran_resume))%nat
  /\ _extract_name veteran_resume = Ok (pystr "Jane Miller")
  /\ _extract_experience_years veteran_resume = Ok (Some 42)
  /\ exists r,
       check_fraud 2024 veteran_resume resume_pdf = Ok r
       /\ (fraud_status r = Suspicious <->
           List.length (snd ((0, []) : tally)) = 2%nat
           \/ exists e, Some 42 = Some e /\ 40 < e).
Proof.
  split; [vm_compute; lia|].
  split; [vm_compute; reflexivity|].
  split; [vm_compute; reflexivity|].
  apply (@status_by_profiles_and_override ascii_data 2024 veteran_resume
           resume_pdf (pystr "Jane Miller") (0, []) (Some 42)).
  - vm_compute; lia.
  - vm_compute; reflexivity.
  - vm_compute; reflexivity.
  - vm_compute; reflexivity.
Defined.

Lemma profile_rules_exclusive_witness :
  profile_name_validation None None (pystr "Jane Miller")
    (profile_presence None None (0, []))
  = Ok (50, [missing_github; missing_linkedin])
  /\ In (50, 2%nat)
        [(0, 0%nat); (25, 1%nat); (30, 1%nat); (50, 2%nat); (55, 2%nat); (60, 2%nat)].
Proof.
  split; [reflexivity|].
  apply (@profile_rules_exclusive ascii_data None None (pystr "Jane Miller")
           (50, [missing_github; missing_linkedin])).
  reflexivity.
Defined.

Lemma short_name_parts_never_match_witness :
  (forall part, In part (split (lower (pystr "Li Wu"))) ->
                (List.length part <= 2)%nat)
  /\ _name_matches (pystr "Li Wu") (pystr "liwu") = false.
Proof.
  assert (H : forall part, In part (split (lower (pystr "Li Wu"))) ->
                           (List.length part <= 2)%nat).
  { intros part Hin. vm_compute in Hin.
    destruct Hin as [<-|[<-|[]]]; simpl; lia. }
  split; [exact H|].
  apply (@short_name_parts_never_match ascii_data (pystr "Li Wu") (pystr "liwu")).
  right. right. exact H.
Defined.

Lemma profile_handle_shape_witness :
  search GITHUB_PATTERN john_smith_resume
  = Some {| matched := pystr "github.com/johnsmith99";
            group1 := Some (pystr "johnsmith99") |}
  /\ exists before link handle after,
       john_smith_resume = before ++ link ++ handle ++ after
       /\ pystr "github.com/johnsmith99" = link ++ handle
       /\ Ok (pystr "johnsmith99") = Ok handle
       /\ handle <> []
       /\ Forall (fun c => in_cset true profile_handle c = true) handle
       /\ (after = []
           \/ exists c r, after = c :: r /\ in_cset true profile_handle c = false).
Proof.
  split; [vm_compute; reflexivity|].
  apply (@profile_handle_shape ascii_data GITHUB_PATTERN john_smith_resume
           {| matched := pystr "github.com/johnsmith99";
              group1 := Some (pystr "johnsmith99") |}).
  - left; reflexivity.
  - vm_compute; reflexivity.
Defined.

Lemma accepted_upload_is_extracted_witness :
  extension_allowed (pystr "Resume.PDF") = true
  /\ snd (splitext (upload_path (pystr "/srv/app/uploads") (pystr "Resume.PDF")))
     = snd (splitext (pystr "Resume.PDF"))
  /\ (extract_text (upload_path (pystr "/srv/app/uploads") (pystr "Resume.PDF"))
      = extract_text_from_pdf (upload_path (pystr "/srv/app/uploads") (pystr "Resume.PDF"))
      \/ extract_text (upload_path (pystr "/srv/app/uploads") (pystr "Resume.PDF"))
         = extract_text_from_docx (upload_path (pystr "/srv/app/uploads") (pystr "Resume.PDF")))
  /\ forall ext,
       extract_text (upload_path (pystr "/srv/app/uploads") (pystr "Resume.PDF"))
       <> UnsupportedFileType ext.
Proof.
  split; [vm_compute; reflexivity|].
  apply (@accepted_upload_is_extracted ascii_data blank_documents
           (pystr "/srv/app/uploads") (pystr "Resume.PDF")).
  vm_compute; reflexivity.
Defined.

Lemma blank_pdf_report_witness :
  isspace 10%N = true
  /\ exists text,
       extract_text_from_pdf (pystr "/srv/app/uploads/scan.pdf") = Text text
       /\ check_fraud 2024 text (pystr "scan.pdf") =
          Ok {| filename := pystr "scan.pdf";
                fraud_score := 100;
                fraud_status := Suspicious;
                reasons := [pystr "Resume content is empty or too short (< 50 characters)"];
                extracted_preview := firstn 300 text |}.
Proof.
  split; [reflexivity|].
  apply (@blank_pdf_report ascii_data blank_documents 2024
           (pystr "/srv/app/uploads/scan.pdf") (pystr "scan.pdf")
           [Got []; Got (pystr "   "); Got []; Got (pystr " ")]).
  - reflexivity.
  - reflexivity.
  - repeat (constructor;
            [eexists; split; [reflexivity|];
             simpl; repeat (constructor; [reflexivity|]); constructor|]).
    constructor.
Defined.

Lemma blank_docx_report_witness :
  isspace 10%N = true
  /\ extract_text_from_docx (pystr "/srv/app/uploads/empty.docx")
     = Text (join newline [[]; pystr "  "; []])
  /\ check_fraud 2024 (join newline [[]; pystr "  "; []]) (pystr "empty.docx") =
     Ok {| filename := pystr "empty.docx";
           fraud_score := 100;
           fraud_status := Suspicious;
           reasons := [pystr "Resume content is empty or too short (< 50 characters)"];
           extracted_preview := firstn 300 (join newline [[]; pystr "  "; []]) |}.
Proof.
  split; [reflexivity|].
  apply (@blank_docx_report ascii_data blank_documents 2024
           (pystr "/srv/app/uploads/empty.docx") (pystr "empty.docx")
           [[]; pystr "  "; []]).
  - reflexivity.
  - reflexivity.
  - repeat (constructor; [simpl; repeat (constructor; [reflexivity|]); constructor|]).
    constructor.
Defined.

End FurtherWitnesses.
